(** * tictac-ai: the game model of [tictacai/logic/models.py]

    A shallow embedding of the tic-tac-toe rules engine: the [Mark]
    enumeration, the frozen dataclasses [Grid], [GameState] and [Move], the
    queries of [GameState] and [make_move_to].  Python [str] values are
    modelled as [string], Python [int] indices as [Z], and a raised
    exception as the [Raise] case of [result]. *)

From Stdlib Require Import ZArith List Bool String Ascii Sorted Lia.
Import ListNotations.

Open Scope Z_scope.

(** ** Exceptions and the error monad *)

Inductive exn : Set :=
| InvalidMove        (* exceptions.InvalidMove, raised by make_move_to *)
| IndexError         (* built-in, raised by str.__getitem__ *)
| MalformedBoard     (* the failure of Grid's construction check *)
| InvalidPosition.   (* the failure of GameState's construction check *)

Inductive result (A : Type) : Type :=
| Ok (a : A)
| Raise (e : exn).
Arguments Ok {A} a.
Arguments Raise {A} e.

Definition bind {A B} (r : result A) (k : A -> result B) : result B :=
  match r with
  | Ok a => k a
  | Raise e => Raise e
  end.

Definition fmap {A B} (f : A -> B) (r : result A) : result B :=
  bind r (fun a => Ok (f a)).

Notation "x <- r ;; k" := (bind r (fun x => k))
  (at level 61, r at next level, right associativity).

(** A [for] loop that appends [f x] for every [x], stopping at the first
    exception. *)
Fixpoint for_append {A B} (f : A -> result B) (xs : list A) : result (list B) :=
  match xs with
  | [] => Ok []
  | x :: xs' => y <- f x ;; ys <- for_append f xs' ;; Ok (y :: ys)
  end.

(** ** The operations of Python's [str] that the module uses *)

Module Str.

Definition len (s : string) : Z := Z.of_nat (String.length s).

(** [s[i]]: an index in [-len, len) is accepted, a negative one counting
    from the end; any other index raises IndexError. *)
Definition getitem (s : string) (i : Z) : result ascii :=
  let k := if i <? 0 then len s + i else i in
  if (0 <=? k) && (k <? len s)
  then match String.get (Z.to_nat k) s with
       | Some c => Ok c
       | None => Raise IndexError
       end
  else Raise IndexError.

(** A slice bound: negative bounds count from the end, and the bound is
    then clamped to [0, len]. *)
Definition bound (s : string) (i : Z) : nat :=
  Z.to_nat (if i <? 0 then Z.max (len s + i) 0 else Z.min i (len s)).

(** [s[:i]] *)
Definition slice_to (s : string) (i : Z) : string :=
  substring 0 (bound s i) s.

(** [s[i:]] *)
Definition slice_from (s : string) (i : Z) : string :=
  substring (bound s i) (String.length s - bound s i) s.

(** [s.count(c)] for a one-character [c]. *)
Fixpoint count (c : ascii) (s : string) : Z :=
  match s with
  | EmptyString => 0
  | String a s' => (if Ascii.eqb a c then 1 else 0) + count c s'
  end.

(** [s.replace(old, new)] for a one-character [old]. *)
Fixpoint replace (old : ascii) (new : string) (s : string) : string :=
  match s with
  | EmptyString => EmptyString
  | String a s' =>
      if Ascii.eqb a old then new ++ replace old new s'
      else String a (replace old new s')
  end.

Fixpoint all (p : ascii -> bool) (s : string) : bool :=
  match s with
  | EmptyString => true
  | String a s' => p a && all p s'
  end.

End Str.

(** ** The fragment of [re] that the module uses

    The patterns are sequences of one-character atoms: [.] (any character
    but a newline) and literals; [\s] and [\?] are used alone with
    [finditer]. *)

Module Re.

Definition newline : ascii := "010"%char.

Definition atom (p c : ascii) : bool :=
  if Ascii.eqb p "."%char then negb (Ascii.eqb c newline)
  else Ascii.eqb p c.

(** [re.match(pat, s)] as a truth value: the pattern has to match a
    prefix of [s]. *)
Fixpoint match_ (pat s : string) : bool :=
  match pat with
  | EmptyString => true
  | String p pat' =>
      match s with
      | EmptyString => false
      | String c s' => atom p c && match_ pat' s'
      end
  end.

(** The class [\s] on the characters a [string] can hold. *)
Definition whitespace (c : ascii) : bool :=
  let n := N_of_ascii c in
  ((9 <=? n) && (n <=? 13) || (28 <=? n) && (n <=? 32)
   || (n =? 133) || (n =? 160))%N.

(** The class [\?]. *)
Definition question (c : ascii) : bool := Ascii.eqb c "?"%char.

(** [[m.start() for m in re.finditer(cls, s)]] for a one-character
    class, counting from offset [k]. *)
Fixpoint starts_from (cls : ascii -> bool) (s : string) (k : Z) : list Z :=
  match s with
  | EmptyString => []
  | String c s' =>
      if cls c then k :: starts_from cls s' (k + 1)
      else starts_from cls s' (k + 1)
  end.

Definition finditer_starts (cls : ascii -> bool) (s : string) : list Z :=
  starts_from cls s 0.

End Re.

(** ** models.py *)

Definition WINNING_PATTERNS : list string :=
  [ "???......";
    "...???...";
    "......???";
    "?..?..?..";
    ".?..?..?.";
    "..?..?..?";
    "?...?...?";
    "..?.?.?.." ]%string.

Inductive Mark : Set := CROSS | NAUGHT.

(** The [str] value of a member of the enumeration. *)
Definition value (m : Mark) : string :=
  match m with
  | CROSS => "X"
  | NAUGHT => "O"
  end.

(** The one character of [value m]. *)
Definition symbol (m : Mark) : ascii :=
  match m with
  | CROSS => "X"
  | NAUGHT => "O"
  end.

(** Iteration order of [for mark in Mark]. *)
Definition Mark_members : list Mark := [CROSS; NAUGHT].

Definition Mark_is (a b : Mark) : bool :=
  match a, b with
  | CROSS, CROSS | NAUGHT, NAUGHT => true
  | _, _ => false
  end.

(** [Mark.other]: [Mark.NAUGHT if self is Mark.CROSS else Mark.NAUGHT]. *)
Definition other (self : Mark) : Mark :=
  if Mark_is self CROSS then NAUGHT else NAUGHT.

Record Grid : Set := { cells : string }.

Definition x_count (g : Grid) : Z := Str.count "X" (cells g).
Definition o_count (g : Grid) : Z := Str.count "O" (cells g).
Definition empty_count (g : Grid) : Z := Str.count " " (cells g).

Record GameState : Set := { grid : Grid; starting_mark : Mark }.

Record Move : Set := {
  mark : Mark;
  cell_index : Z;
  before_state : GameState;
  after_state : GameState
}.

Definition current_mark (self : GameState) : Mark :=
  if x_count (grid self) =? o_count (grid self)
  then starting_mark self
  else other (starting_mark self).

Definition game_not_started (self : GameState) : bool :=
  empty_count (grid self) =? 9.

(** The test of the two scanning loops: does [pattern], with [?] replaced
    by the mark, match the cells? *)
Definition pattern_matches (pattern : string) (m : Mark) (cs : string) : bool :=
  Re.match_ (Str.replace "?" (value m) pattern) cs.

(** [winner]: the mark of the first (pattern, mark) pair that matches,
    patterns in the outer loop and marks in the inner one. *)
Fixpoint winner_scan (patterns : list string) (cs : string) : option Mark :=
  match patterns with
  | [] => None
  | pattern :: rest =>
      match find (fun m => pattern_matches pattern m cs) Mark_members with
      | Some m => Some m
      | None => winner_scan rest cs
      end
  end.

Definition winner (self : GameState) : option Mark :=
  winner_scan WINNING_PATTERNS (cells (grid self)).

(** [winning_cells]: the same scan, returning the offsets of the [?]s of
    the first pattern that matches. *)
Fixpoint winning_cells_scan (patterns : list string) (cs : string) : list Z :=
  match patterns with
  | [] => []
  | pattern :: rest =>
      match find (fun m => pattern_matches pattern m cs) Mark_members with
      | Some _ => Re.finditer_starts Re.question pattern
      | None => winning_cells_scan rest cs
      end
  end.

Definition winning_cells (self : GameState) : list Z :=
  winning_cells_scan WINNING_PATTERNS (cells (grid self)).

Definition is_none {A} (o : option A) : bool :=
  match o with
  | None => true
  | Some _ => false
  end.

Definition tie (self : GameState) : bool :=
  is_none (winner self) && (empty_count (grid self) =? 0).

Definition game_over (self : GameState) : bool :=
  negb (is_none (winner self)) || tie self.

(** ** Construction checks

    [Grid.__post_init__] and [GameState.__post_init__] call
    [validate_grid] and [validate_game_state] of validators.py, and
    [make_move_to] raises [InvalidMove] of exceptions.py.  Neither module
    is among the sources; the checks below follow the data model of the
    specification. *)

(** Modelled from the spec: the values a cell may hold, "one of empty,
    A, B", in the characters models.py uses for them. *)
Definition cell_value (c : ascii) : bool :=
  Ascii.eqb c " " || Ascii.eqb c "X" || Ascii.eqb c "O".

(** Modelled from the spec: [validate_grid], missing with validators.py.
    Construction of a board "fails with MalformedBoard if length is not 9
    or any cell value is not one of empty, A, B". *)
Definition validate_grid (g : Grid) : bool :=
  (String.length (cells g) =? 9)%nat && Str.all cell_value (cells g).

(** Modelled from the spec: the "fixed catalogue of 8 winning line
    shapes", three rows, three columns and two diagonals, as index sets. *)
Definition LINES : list (list Z) :=
  [ [0; 1; 2]; [3; 4; 5]; [6; 7; 8];
    [0; 3; 6]; [1; 4; 7]; [2; 5; 8];
    [0; 4; 8]; [2; 4; 6] ].

(** Modelled from the spec: cell [i] of the board "equals that mark". *)
Definition holds (cs : string) (m : Mark) (i : Z) : bool :=
  match String.get (Z.to_nat i) cs with
  | Some c => Ascii.eqb c (symbol m)
  | None => false
  end.

(** Modelled from the spec: the winning condition, "every cell in some
    line equals that mark". *)
Definition completes_line (cs : string) (m : Mark) : bool :=
  existsb (fun line => forallb (holds cs m) line) LINES.

(** Modelled from the spec: [count(m)], through the counters of [Grid]. *)
Definition count_of (m : Mark) (g : Grid) : Z :=
  match m with
  | CROSS => x_count g
  | NAUGHT => o_count g
  end.

(** Modelled from the spec: the complement of a mark, "other(A) = B,
    other(B) = A". *)
Definition opposite (m : Mark) : Mark :=
  match m with
  | CROSS => NAUGHT
  | NAUGHT => CROSS
  end.

(** Modelled from the spec: [validate_game_state], missing with
    validators.py.  The three invariants of a Position, in the order the
    data model lists them: the counts of the two marks differ by at most
    one; at most one mark satisfies the winning condition; "if
    starting_mark went second by count, counts must reflect that exactly
    one extra move belongs to the other mark" (read as: when the starting
    mark has fewer cells than the other mark, the other mark has exactly
    one more; the first invariant already implies it). *)
Definition validate_game_state (self : GameState) : bool :=
  let g := grid self in
  let first := starting_mark self in
  (Z.abs (x_count g - o_count g) <=? 1)
  && negb (completes_line (cells g) CROSS && completes_line (cells g) NAUGHT)
  && (if count_of first g <? count_of (opposite first) g
      then count_of (opposite first) g =? count_of first g + 1
      else true).

(** [Grid(cells=cs)] *)
Definition Grid_init (cs : string) : result Grid :=
  let g := {| cells := cs |} in
  if validate_grid g then Ok g else Raise MalformedBoard.

(** [GameState(g, starting_mark=m)] *)
Definition GameState_init (g : Grid) (m : Mark) : result GameState :=
  let s := {| grid := g; starting_mark := m |} in
  if validate_game_state s then Ok s else Raise InvalidPosition.

(** A Position: a [GameState] value that passed both construction checks. *)
Definition Position (s : GameState) : Prop :=
  validate_grid (grid s) = true /\ validate_game_state s = true.

(** ** Moves *)

Definition make_move_to (self : GameState) (index : Z) : result Move :=
  let cs := cells (grid self) in
  c <- Str.getitem cs index ;;
  if negb (Ascii.eqb c " ") then Raise InvalidMove
  else
    g <- Grid_init (Str.slice_to cs index
                    ++ value (current_mark self)
                    ++ Str.slice_from cs (index + 1)) ;;
    after <- GameState_init g (starting_mark self) ;;
    Ok {| mark := current_mark self;
          cell_index := index;
          before_state := self;
          after_state := after |}.

Definition possible_moves (self : GameState) : result (list Move) :=
  if negb (game_over self)
  then for_append (make_move_to self)
         (Re.finditer_starts Re.whitespace (cells (grid self)))
  else Ok [].

(** ** Vocabulary of the statements *)

(** A state written down directly. *)
Definition state (cs : string) (m : Mark) : GameState :=
  {| grid := {| cells := cs |}; starting_mark := m |}.

(** The state that [make_move_to] hands to [GameState]'s construction
    check when the target cell is empty. *)
Definition next_state (self : GameState) (index : Z) : GameState :=
  let cs := cells (grid self) in
  state (Str.slice_to cs index
         ++ value (current_mark self)
         ++ Str.slice_from cs (index + 1))
        (starting_mark self).

(** The record that [make_move_to] returns when both construction checks
    pass. *)
Definition move_to (self : GameState) (index : Z) : Move :=
  {| mark := current_mark self;
     cell_index := index;
     before_state := self;
     after_state := next_state self index |}.

(** The move [mv] with its recorded index replaced by [i]. *)
Definition with_cell_index (i : Z) (mv : Move) : Move :=
  {| mark := mark mv;
     cell_index := i;
     before_state := before_state mv;
     after_state := after_state mv |}.

(** Every cell of [line] holds mark [m]. *)
Definition line_of (cs : string) (m : Mark) (line : list Z) : Prop :=
  forall i, In i line -> String.get (Z.to_nat i) cs = Some (symbol m).

(** Functional update of one character, the meaning of the splice
    [s[:n] + c + s[n+1:]] for an index inside the string. *)
Fixpoint set_nth (n : nat) (c : ascii) (s : string) : string :=
  match s with
  | EmptyString => EmptyString
  | String a s' =>
      match n with
      | O => String c s'
      | S n' => String a (set_nth n' c s')
      end
  end.

(** ** Sample states *)

(** The empty board, X to start. *)
Definition initial : GameState := state "         " CROSS.

(** O started and has played the top-left corner. *)
Definition naught_opened : GameState := state "O        " NAUGHT.

(** X started and has completed the top row; four cells are still empty. *)
Definition cross_won : GameState := state "XXXOO    " CROSS.

(** A well-formed board that is no Position: both marks hold a row. *)
Definition two_rows : GameState := state "XXXOOO   " CROSS.

(** ** Games played from the default state *)

(** [played n s]: [s] is reached from [GameState(Grid())], the empty
    board with X to start, through [n] calls of [make_move_to] that each
    returned a move, the next call being made on its [after_state]. *)
Inductive played : nat -> GameState -> Prop :=
| played_initial : played 0 initial
| played_move (n : nat) (s : GameState) (i : Z) (mv : Move) :
    played n s -> make_move_to s i = Ok mv -> played (S n) (after_state mv).

(** * Facts about strings and slices *)

Section StringFacts.

Open Scope nat_scope.

Lemma substring_all (s : string) : substring 0 (String.length s) s = s.
Proof. induction s as [|a s IH]; simpl; [reflexivity | now rewrite IH]. Qed.

Lemma splice_set_nth (c : ascii) :
  forall n s, n < String.length s ->
    (substring 0 n s
     ++ String c (substring (S n) (String.length s - S n) s))%string
    = set_nth n c s.
Proof.
  induction n as [|n IH]; intros [|a s] Hn; simpl in Hn; try lia.
  - simpl. now rewrite Nat.sub_0_r, substring_all.
  - simpl. f_equal. apply IH. lia.
Qed.

Lemma length_set_nth (c : ascii) :
  forall n s, String.length (set_nth n c s) = String.length s.
Proof.
  intros n s; revert n; induction s as [|a s IH]; intros [|n]; simpl; auto.
Qed.

Lemma get_set_nth_same (c : ascii) :
  forall n s, n < String.length s -> String.get n (set_nth n c s) = Some c.
Proof.
  induction n as [|n IH]; intros [|a s] Hn; simpl in *; try lia; auto.
  apply IH; lia.
Qed.

Lemma get_set_nth_other (c : ascii) :
  forall n k s, k <> n -> String.get k (set_nth n c s) = String.get k s.
Proof.
  induction n as [|n IH]; intros [|k] [|a s] Hk; simpl; auto; try lia.
Qed.

Lemma all_set_nth (p : ascii -> bool) (c : ascii) :
  p c = true ->
  forall n s, Str.all p s = true -> Str.all p (set_nth n c s) = true.
Proof.
  intros Hc n s; revert n.
  induction s as [|a s IH]; intros [|n] H; simpl in *; auto;
    apply andb_true_iff in H as [Ha Hs]; apply andb_true_iff; auto.
Qed.

Lemma get_in_range :
  forall s n, n < String.length s -> exists c, String.get n s = Some c.
Proof.
  induction s as [|a s IH]; intros [|n] Hn; simpl in *; try lia; eauto.
  apply IH; lia.
Qed.

Lemma all_get (p : ascii -> bool) :
  forall s n c, Str.all p s = true -> String.get n s = Some c -> p c = true.
Proof.
  induction s as [|a s IH]; intros [|n] c H Hg; simpl in *; try discriminate;
    apply andb_true_iff in H as [Ha Hs].
  - now inversion Hg; subst.
  - eauto.
Qed.

End StringFacts.

Lemma count_set_nth (c d : ascii) :
  forall n s old, String.get n s = Some old ->
    Str.count d (set_nth n c s)
    = Str.count d s - (if Ascii.eqb old d then 1 else 0)
      + (if Ascii.eqb c d then 1 else 0).
Proof.
  induction n as [|n IH]; intros [|a s] old Hg; simpl in *; try discriminate.
  - inversion Hg; subst. lia.
  - rewrite (IH s old Hg). lia.
Qed.

Lemma value_symbol (m : Mark) (s : string) :
  (value m ++ s)%string = String (symbol m) s.
Proof. destruct m; reflexivity. Qed.

(** The splice of [make_move_to] at an index inside the string. *)
Lemma splice_in_range (s : string) (i : Z) (m : Mark) :
  0 <= i < Str.len s ->
  (Str.slice_to s i ++ value m ++ Str.slice_from s (i + 1))%string
  = set_nth (Z.to_nat i) (symbol m) s.
Proof.
  intros Hi. unfold Str.slice_to, Str.slice_from, Str.bound, Str.len in *.
  destruct (Z.ltb_spec i 0); [lia|].
  destruct (Z.ltb_spec (i + 1) 0); [lia|].
  rewrite Z.min_l by lia. rewrite Z.min_l by lia.
  replace (Z.to_nat (i + 1)) with (S (Z.to_nat i)) by lia.
  rewrite value_symbol. apply splice_set_nth. lia.
Qed.

Lemma getitem_in_range (s : string) (i : Z) :
  0 <= i < Str.len s ->
  exists c, String.get (Z.to_nat i) s = Some c /\ Str.getitem s i = Ok c.
Proof.
  intros Hi. unfold Str.getitem.
  destruct (Z.ltb_spec i 0); [lia|].
  destruct (Z.leb_spec 0 i); [|lia].
  destruct (Z.ltb_spec i (Str.len s)); [|lia]. simpl.
  destruct (get_in_range s (Z.to_nat i)) as [c Hc]; [unfold Str.len in Hi; lia|].
  exists c. now rewrite Hc.
Qed.

Lemma getitem_out_of_range (s : string) (i : Z) :
  i < - Str.len s \/ Str.len s <= i -> Str.getitem s i = Raise IndexError.
Proof.
  intros Hi. unfold Str.getitem.
  destruct (Z.ltb_spec i 0).
  - destruct (Z.leb_spec 0 (Str.len s + i)); [|reflexivity].
    unfold Str.len in *; lia.
  - destruct (Z.ltb_spec i (Str.len s)); [unfold Str.len in *; lia|].
    now rewrite andb_false_r.
Qed.

(** Negative indexing: an index in [-len, 0) reads the cell [len + i]. *)
Lemma getitem_negative (s : string) (i : Z) :
  - Str.len s <= i < 0 -> Str.getitem s i = Str.getitem s (Str.len s + i).
Proof.
  intros Hi. unfold Str.getitem.
  destruct (Z.ltb_spec i 0); [|lia].
  destruct (Z.ltb_spec (Str.len s + i) 0); [lia|]. reflexivity.
Qed.

Lemma slice_to_negative (s : string) (i : Z) :
  - Str.len s <= i < 0 -> Str.slice_to s i = Str.slice_to s (Str.len s + i).
Proof.
  intros Hi. unfold Str.slice_to, Str.bound.
  destruct (Z.ltb_spec i 0); [|lia].
  destruct (Z.ltb_spec (Str.len s + i) 0); [lia|].
  f_equal. lia.
Qed.

Lemma slice_from_negative (s : string) (i : Z) :
  - Str.len s <= i < 0 -> Str.slice_from s i = Str.slice_from s (Str.len s + i).
Proof.
  intros Hi. unfold Str.slice_from, Str.bound.
  destruct (Z.ltb_spec i 0); [|lia].
  destruct (Z.ltb_spec (Str.len s + i) 0); [lia|].
  replace (Z.to_nat (Z.max (Str.len s + i) 0))
    with (Z.to_nat (Z.min (Str.len s + i) (Str.len s))) by lia.
  reflexivity.
Qed.

(** * Facts about boards *)

Lemma atom_dot (c : ascii) : cell_value c = true -> Re.atom "." c = true.
Proof.
  unfold cell_value, Re.atom. simpl (Ascii.eqb "." "."). cbv iota.
  intros H.
  apply orb_true_iff in H as [H|H]; [apply orb_true_iff in H as [H|H]|];
    apply Ascii.eqb_eq in H; subst; reflexivity.
Qed.

Lemma atom_symbol (m : Mark) (c : ascii) :
  Re.atom (symbol m) c = Ascii.eqb c (symbol m).
Proof. unfold Re.atom. rewrite (Ascii.eqb_sym c). destruct m; reflexivity. Qed.

Lemma symbol_inj (m m' : Mark) : symbol m = symbol m' -> m = m'.
Proof. destruct m, m'; simpl; intros H; try reflexivity; discriminate. Qed.

Lemma whitespace_cell (c : ascii) :
  cell_value c = true -> Re.whitespace c = Ascii.eqb c " ".
Proof.
  unfold cell_value. intros H.
  apply orb_true_iff in H as [H|H]; [apply orb_true_iff in H as [H|H]|];
    apply Ascii.eqb_eq in H; subst; reflexivity.
Qed.

(** A well-formed board is nine cells, each a blank, an X or an O. *)
Lemma validate_grid_nine (cs : string) :
  validate_grid {| cells := cs |} = true ->
  exists c0 c1 c2 c3 c4 c5 c6 c7 c8,
    cs = String c0 (String c1 (String c2 (String c3 (String c4
          (String c5 (String c6 (String c7 (String c8 EmptyString))))))))
    /\ Forall (fun c => cell_value c = true) [c0; c1; c2; c3; c4; c5; c6; c7; c8].
Proof.
  unfold validate_grid; simpl. intros H. apply andb_true_iff in H as [Hl Ha].
  apply Nat.eqb_eq in Hl.
  do 9 (destruct cs as [|? cs]; [discriminate|]).
  destruct cs; [|discriminate].
  do 9 eexists. split; [reflexivity|].
  simpl in Ha. repeat (apply andb_true_iff in Ha as [? Ha]).
  repeat constructor; assumption.
Qed.

Lemma validate_grid_len (g : Grid) :
  validate_grid g = true -> Str.len (cells g) = 9.
Proof.
  unfold validate_grid, Str.len. intros H.
  apply andb_true_iff in H as [Hl _]. apply Nat.eqb_eq in Hl. now rewrite Hl.
Qed.

Lemma validate_grid_all (g : Grid) :
  validate_grid g = true -> Str.all cell_value (cells g) = true.
Proof. unfold validate_grid. intros H. now apply andb_true_iff in H. Qed.

Lemma holds_spec (cs : string) (m : Mark) (i : Z) :
  holds cs m i = true <-> String.get (Z.to_nat i) cs = Some (symbol m).
Proof.
  unfold holds. destruct (String.get (Z.to_nat i) cs) as [c|].
  - rewrite Ascii.eqb_eq. split; [now intros -> | now intros [= ->]].
  - split; discriminate.
Qed.

Lemma line_of_spec (cs : string) (m : Mark) (line : list Z) :
  forallb (holds cs m) line = true <-> line_of cs m line.
Proof.
  rewrite forallb_forall. unfold line_of.
  split; intros H i Hi; apply holds_spec; auto.
Qed.

(** The catalogue of index sets is the catalogue of patterns, read
    through the offsets of their [?]s. *)
Lemma LINES_of_patterns :
  map (Re.finditer_starts Re.question) WINNING_PATTERNS = LINES.
Proof. reflexivity. Qed.

(** On a well-formed board a pattern matches for a mark exactly when the
    cells under its [?]s all hold the mark. *)
Lemma pattern_matches_line (pattern : string) (m : Mark) (cs : string) :
  In pattern WINNING_PATTERNS ->
  validate_grid {| cells := cs |} = true ->
  pattern_matches pattern m cs
  = forallb (holds cs m) (Re.finditer_starts Re.question pattern).
Proof.
  intros Hp Hg.
  destruct (validate_grid_nine cs Hg) as (c0&c1&c2&c3&c4&c5&c6&c7&c8&->&Hc).
  repeat match goal with H : Forall _ (_ :: _) |- _ => inversion_clear H end.
  unfold WINNING_PATTERNS in Hp. simpl in Hp.
  repeat destruct Hp as [<-|Hp]; try contradiction.
  all: unfold pattern_matches; destruct m.
  all: match goal with
       | |- Re.match_ ?p _ = forallb _ ?l =>
           let p' := eval vm_compute in p in
           let l' := eval vm_compute in l in
           change p with p'; change l with l'
       end.
  all: cbn [Re.match_ forallb].
  all: rewrite ?(atom_symbol CROSS), ?(atom_symbol NAUGHT), ?atom_dot
         by assumption.
  all: unfold holds; simpl.
  all: rewrite ?andb_true_r; reflexivity.
Qed.

(** The two scanning loops stop at the same place: either no pattern
    matches for any mark, or there is a first pattern that matches. *)
Lemma scan_first (cs : string) :
  forall ps,
    (winner_scan ps cs = None
     /\ winning_cells_scan ps cs = []
     /\ forall p m, In p ps -> pattern_matches p m cs = false)
    \/ (exists k p m,
          nth_error ps k = Some p
          /\ winner_scan ps cs = Some m
          /\ winning_cells_scan ps cs = Re.finditer_starts Re.question p
          /\ pattern_matches p m cs = true
          /\ forall j q m', (j < k)%nat -> nth_error ps j = Some q ->
                            pattern_matches q m' cs = false).
Proof.
  induction ps as [|a ps IH]; [left; repeat apply conj; auto; intros ? ? []|].
  cbn [winner_scan winning_cells_scan].
  destruct (find (fun m => pattern_matches a m cs) Mark_members) as [m|] eqn:Hf.
  - right. exists 0%nat, a, m. apply find_some in Hf as [_ Hm]. simpl in Hm.
    repeat apply conj; auto. intros j q m' Hj; lia.
  - assert (Ha : forall m, pattern_matches a m cs = false).
    { intros m. apply (find_none _ _ Hf). destruct m; simpl; auto. }
    destruct IH as [(Hw & Hc & Hn) | (k & p & m & Hk & Hw & Hc & Hm & Hlt)].
    + left. repeat apply conj; auto. intros p m [<-|Hp]; auto.
    + right. exists (S k), p, m. repeat apply conj; auto.
      intros [|j] q m' Hj Hq; simpl in Hq.
      * inversion Hq; subst; auto.
      * apply (Hlt j); auto; lia.
Qed.

(** [completes_line] is the disjunction the scan looks for. *)
Lemma completes_line_patterns (cs : string) (m : Mark) :
  validate_grid {| cells := cs |} = true ->
  completes_line cs m = true <->
  exists p, In p WINNING_PATTERNS /\ pattern_matches p m cs = true.
Proof.
  intros Hg. unfold completes_line. rewrite existsb_exists.
  rewrite <- LINES_of_patterns. split.
  - intros (line & Hin & Hl). apply in_map_iff in Hin as (p & <- & Hp).
    exists p. split; auto. now rewrite pattern_matches_line.
  - intros (p & Hp & Hm).
    exists (Re.finditer_starts Re.question p). split.
    + now apply in_map.
    + now rewrite <- pattern_matches_line.
Qed.

Lemma completes_line_spec (cs : string) (m : Mark) :
  completes_line cs m = true <->
  exists line, In line LINES /\ line_of cs m line.
Proof.
  unfold completes_line. rewrite existsb_exists.
  split; intros (line & Hin & Hl); exists line; split; auto;
    now apply line_of_spec.
Qed.

Lemma grid_eta (g : Grid) : g = {| cells := cells g |}.
Proof. now destruct g. Qed.

Lemma winner_Some_completes (s : GameState) (m : Mark) :
  validate_grid (grid s) = true ->
  winner s = Some m -> completes_line (cells (grid s)) m = true.
Proof.
  intros Hg Hw. rewrite (grid_eta (grid s)) in Hg.
  apply completes_line_patterns; auto.
  unfold winner in Hw.
  destruct (scan_first (cells (grid s)) WINNING_PATTERNS)
    as [(Hn & _) | (k & p & m' & Hk & Hw' & _ & Hm & _)]; [congruence|].
  exists p. split; [eapply nth_error_In; eauto | congruence].
Qed.

Lemma winner_None_completes (s : GameState) (m : Mark) :
  validate_grid (grid s) = true ->
  winner s = None -> completes_line (cells (grid s)) m = false.
Proof.
  intros Hg Hw. rewrite (grid_eta (grid s)) in Hg.
  destruct (completes_line (cells (grid s)) m) eqn:Hc; [|reflexivity].
  apply completes_line_patterns in Hc as (p & Hp & Hm); auto.
  unfold winner in Hw.
  destruct (scan_first (cells (grid s)) WINNING_PATTERNS)
    as [(_ & _ & Hn) | (k & q & m' & _ & Hw' & _)]; [|congruence].
  rewrite (Hn p m Hp) in Hm. discriminate.
Qed.

(** In a Position at most one mark completes a line. *)
Lemma Position_single_winner (s : GameState) (m m' : Mark) :
  Position s ->
  completes_line (cells (grid s)) m = true ->
  completes_line (cells (grid s)) m' = true ->
  m = m'.
Proof.
  intros [_ Hv] Hm Hm'. unfold validate_game_state in Hv.
  apply andb_true_iff in Hv as [Hv _]. apply andb_true_iff in Hv as [_ Hv].
  destruct m, m'; try reflexivity; rewrite Hm, Hm' in Hv; discriminate.
Qed.

Lemma LINES_shape :
  Forall (fun line => List.length line = 3%nat /\ StronglySorted Z.lt line) LINES.
Proof.
  unfold LINES.
  repeat (apply Forall_cons || apply Forall_nil);
    (split; [reflexivity | repeat constructor; reflexivity]).
Qed.

(** * Facts about [make_move_to] *)

Lemma get_set_nth_inv (c : ascii) :
  forall n s x, String.get n (set_nth n c s) = Some x -> x = c.
Proof.
  induction n as [|n IH]; intros [|a s] x H; simpl in H; try discriminate.
  - now inversion H.
  - eauto.
Qed.

(** [make_move_to], with the two constructors unfolded. *)
Lemma make_move_to_unfold (s : GameState) (i : Z) :
  make_move_to s i
  = (c <- Str.getitem (cells (grid s)) i ;;
     if negb (Ascii.eqb c " ") then Raise InvalidMove
     else if validate_grid (grid (next_state s i))
          then if validate_game_state (next_state s i)
               then Ok (move_to s i)
               else Raise InvalidPosition
          else Raise MalformedBoard).
Proof.
  unfold make_move_to, Grid_init, GameState_init, next_state, state, move_to.
  destruct (Str.getitem (cells (grid s)) i) as [c|e]; simpl; [|reflexivity].
  destruct (negb (Ascii.eqb c " ")); [reflexivity|].
  destruct (validate_grid _); simpl; [|reflexivity].
  destruct (validate_game_state _); reflexivity.
Qed.

Lemma next_state_cells (s : GameState) (i : Z) :
  validate_grid (grid s) = true -> 0 <= i < 9 ->
  cells (grid (next_state s i))
  = set_nth (Z.to_nat i) (symbol (current_mark s)) (cells (grid s)).
Proof.
  intros Hg Hi. unfold next_state, state; simpl.
  apply splice_in_range. now rewrite (validate_grid_len _ Hg).
Qed.

Lemma cell_value_symbol (m : Mark) : cell_value (symbol m) = true.
Proof. now destruct m. Qed.

Lemma next_state_grid (s : GameState) (i : Z) :
  validate_grid (grid s) = true -> 0 <= i < 9 ->
  validate_grid (grid (next_state s i)) = true.
Proof.
  intros Hg Hi. unfold validate_grid. rewrite next_state_cells by assumption.
  rewrite length_set_nth. apply andb_true_iff. split.
  - unfold validate_grid in Hg. now apply andb_true_iff in Hg.
  - apply all_set_nth; [apply cell_value_symbol | now apply validate_grid_all].
Qed.

(** A cell of a Position, read at an index of the board. *)
Lemma Position_cell (s : GameState) (i : Z) :
  validate_grid (grid s) = true -> 0 <= i < 9 ->
  exists c, String.get (Z.to_nat i) (cells (grid s)) = Some c
            /\ Str.getitem (cells (grid s)) i = Ok c
            /\ cell_value c = true.
Proof.
  intros Hg Hi.
  destruct (getitem_in_range (cells (grid s)) i) as (c & Hc & Hget).
  { now rewrite (validate_grid_len _ Hg). }
  exists c. repeat apply conj; auto.
  eapply all_get; eauto. now apply validate_grid_all.
Qed.

Lemma make_move_to_in_range (s : GameState) (i : Z) (c : ascii) :
  validate_grid (grid s) = true -> 0 <= i < 9 ->
  Str.getitem (cells (grid s)) i = Ok c ->
  make_move_to s i
  = if negb (Ascii.eqb c " ") then Raise InvalidMove
    else if validate_game_state (next_state s i)
         then Ok (move_to s i)
         else Raise InvalidPosition.
Proof.
  intros Hg Hi Hc. rewrite make_move_to_unfold, Hc. cbn [bind].
  now rewrite next_state_grid.
Qed.

Lemma cell_occupied (c : ascii) :
  cell_value c = true ->
  (negb (Ascii.eqb c " ") = true <-> exists m, c = symbol m).
Proof.
  unfold cell_value. intros H.
  apply orb_true_iff in H as [H|H]; [apply orb_true_iff in H as [H|H]|];
    apply Ascii.eqb_eq in H; subst; simpl; split; intros H;
    try discriminate; try reflexivity.
  - destruct H as [[] H]; discriminate.
  - now exists CROSS.
  - now exists NAUGHT.
Qed.

(** Negative indices from -9 to -2 address the same cell, and build the
    same next state, as the index nine higher. *)
Lemma next_state_negative (s : GameState) (i : Z) :
  validate_grid (grid s) = true -> -9 <= i <= -2 ->
  next_state s i = next_state s (i + 9).
Proof.
  intros Hg Hi. pose proof (validate_grid_len _ Hg) as Hlen.
  unfold next_state.
  rewrite (slice_to_negative _ i) by lia.
  rewrite (slice_from_negative _ (i + 1)) by lia.
  rewrite Hlen.
  replace (9 + (i + 1)) with (i + 9 + 1) by lia.
  now replace (9 + i) with (i + 9) by lia.
Qed.

Lemma make_move_to_negative (s : GameState) (i : Z) :
  validate_grid (grid s) = true -> -9 <= i <= -2 ->
  make_move_to s i = fmap (with_cell_index i) (make_move_to s (i + 9)).
Proof.
  intros Hg Hi. pose proof (validate_grid_len _ Hg) as Hlen.
  rewrite !make_move_to_unfold.
  rewrite (getitem_negative _ i) by lia. rewrite Hlen.
  replace (9 + i) with (i + 9) by lia.
  unfold move_to. rewrite (next_state_negative s i) by assumption.
  destruct (Str.getitem (cells (grid s)) (i + 9)) as [c|e]; [|reflexivity].
  cbn [bind fmap]. destruct (negb (Ascii.eqb c " ")); [reflexivity|].
  destruct (validate_grid (grid (next_state s (i + 9)))); [|reflexivity].
  destruct (validate_game_state (next_state s (i + 9))); reflexivity.
Qed.

(** Placing a mark cannot complete a line for the other one. *)
Lemma completes_line_set_nth (cs : string) (n : nat) (c : ascii) (m : Mark) :
  symbol m <> c ->
  completes_line (set_nth n c cs) m = true -> completes_line cs m = true.
Proof.
  intros Hc H. apply completes_line_spec in H as (line & Hin & Hl).
  apply completes_line_spec. exists line. split; [assumption|].
  intros i Hi. specialize (Hl i Hi).
  destruct (Nat.eq_dec (Z.to_nat i) n) as [<-|Hn].
  - apply get_set_nth_inv in Hl. congruence.
  - now rewrite get_set_nth_other in Hl.
Qed.

Lemma next_state_counts (s : GameState) (i : Z) :
  validate_grid (grid s) = true -> 0 <= i < 9 ->
  Str.getitem (cells (grid s)) i = Ok " "%char ->
  x_count (grid (next_state s i))
  = x_count (grid s) + (if Mark_is (current_mark s) CROSS then 1 else 0)
  /\ o_count (grid (next_state s i))
     = o_count (grid s) + (if Mark_is (current_mark s) NAUGHT then 1 else 0).
Proof.
  intros Hg Hi Hc.
  destruct (Position_cell s i Hg Hi) as (c & Hget & Hc' & _).
  assert (c = " "%char) by congruence. subst c.
  unfold x_count, o_count. rewrite next_state_cells by assumption.
  rewrite !(count_set_nth _ _ _ _ _ Hget).
  destruct (current_mark s); simpl; lia.
Qed.

Lemma Position_balance (s : GameState) :
  Position s -> Z.abs (x_count (grid s) - o_count (grid s)) <= 1.
Proof.
  intros [_ Hv]. unfold validate_game_state in Hv.
  apply andb_true_iff in Hv as [Hv _]. apply andb_true_iff in Hv as [Hv _].
  now apply Z.leb_le.
Qed.

(** When nobody has won and O is not ahead, the state built by a move to
    an empty cell passes the construction check. *)
Lemma next_state_valid (s : GameState) (i : Z) :
  Position s -> 0 <= i < 9 ->
  Str.getitem (cells (grid s)) i = Ok " "%char ->
  winner s = None ->
  o_count (grid s) <= x_count (grid s) ->
  validate_game_state (next_state s i) = true.
Proof.
  intros Hs Hi Hc Hw Hle. pose proof Hs as [Hg _].
  pose proof (Position_balance s Hs) as Hb.
  destruct (next_state_counts s i Hg Hi Hc) as [Hx Ho].
  assert (Hbal : Z.abs (x_count (grid (next_state s i))
                        - o_count (grid (next_state s i))) <= 1).
  { rewrite Hx, Ho. unfold current_mark.
    destruct (Z.eqb_spec (x_count (grid s)) (o_count (grid s)));
      destruct (starting_mark s); simpl; lia. }
  unfold validate_game_state.
  apply andb_true_iff; split; [apply andb_true_iff; split|].
  - now apply Z.leb_le.
  - rewrite next_state_cells by assumption.
    apply negb_true_iff, andb_false_iff.
    destruct (current_mark s) eqn:Hm; [right | left].
    all: match goal with |- ?b = false => destruct b eqn:Hcl end; auto.
    all: apply completes_line_set_nth in Hcl; [|discriminate].
    all: now rewrite (winner_None_completes s _ Hg Hw) in Hcl.
  - change (starting_mark (next_state s i)) with (starting_mark s).
    destruct (starting_mark s); cbn [count_of opposite].
    all: match goal with |- (if ?a <? ?b then _ else _) = true =>
                           destruct (Z.ltb_spec a b) end; auto.
    all: apply Z.eqb_eq; lia.
Qed.

(** * Facts about [possible_moves] *)

Lemma for_append_Ok {A B} (f : A -> result B) (g : A -> B) (xs : list A) :
  (forall x, In x xs -> f x = Ok (g x)) ->
  for_append f xs = Ok (map g xs).
Proof.
  induction xs as [|x xs IH]; intros H; [reflexivity|].
  cbn [for_append map]. rewrite (H x) by now left. cbn [bind].
  rewrite IH by (intros y Hy; apply H; now right). reflexivity.
Qed.

Lemma starts_from_In (cls : ascii -> bool) :
  forall s k0 k, In k (Re.starts_from cls s k0) ->
    k0 <= k < k0 + Str.len s
    /\ exists c, String.get (Z.to_nat (k - k0)) s = Some c /\ cls c = true.
Proof.
  unfold Str.len.
  induction s as [|a s IH]; intros k0 k Hin; [destruct Hin|].
  cbn [Re.starts_from] in Hin.
  assert (Hrest : In k (Re.starts_from cls s (k0 + 1)) ->
                  k0 <= k < k0 + Z.of_nat (String.length (String a s))
                  /\ exists c, String.get (Z.to_nat (k - k0)) (String a s) = Some c
                               /\ cls c = true).
  { intros Hk. destruct (IH _ _ Hk) as [Hr (c & Hc & Hcls)].
    cbn [String.length]. split; [lia|]. exists c. split; [|assumption].
    replace (Z.to_nat (k - k0)) with (S (Z.to_nat (k - (k0 + 1)))) by lia.
    exact Hc. }
  destruct (cls a) eqn:Ha; [|auto].
  destruct Hin as [<-|Hin]; [|auto].
  cbn [String.length]. split; [lia|]. exists a.
  rewrite Z.sub_diag. now split.
Qed.

Lemma starts_from_whitespace_length :
  forall s k0, Str.all cell_value s = true ->
    Z.of_nat (List.length (Re.starts_from Re.whitespace s k0)) = Str.count " " s.
Proof.
  induction s as [|a s IH]; intros k0 H; [reflexivity|].
  cbn [Str.all] in H. apply andb_true_iff in H as [Ha Hs].
  cbn [Re.starts_from Str.count]. rewrite (whitespace_cell a Ha).
  destruct (Ascii.eqb a " "); cbn [List.length]; rewrite <- (IH (k0 + 1) Hs); lia.
Qed.

Lemma game_over_false_winner (s : GameState) :
  game_over s = false -> winner s = None.
Proof.
  unfold game_over. intros H. apply orb_false_iff in H as [H _].
  destruct (winner s); [discriminate | reflexivity].
Qed.

(** Once the game is over there is no move to offer. *)
Lemma possible_moves_game_over (s : GameState) :
  game_over s = true -> possible_moves s = Ok [].
Proof. unfold possible_moves. now intros ->. Qed.

(** While the game is on and O is not ahead of X, there is one move per
    empty cell, in ascending order of the cells. *)
Lemma possible_moves_playing (s : GameState) :
  Position s -> game_over s = false ->
  o_count (grid s) <= x_count (grid s) ->
  possible_moves s
  = Ok (map (move_to s) (Re.finditer_starts Re.whitespace (cells (grid s))))
  /\ Z.of_nat (List.length
                 (Re.finditer_starts Re.whitespace (cells (grid s))))
     = empty_count (grid s).
Proof.
  intros Hs Hover Hle. pose proof Hs as [Hg _].
  pose proof (validate_grid_len _ Hg) as Hlen.
  pose proof (validate_grid_all _ Hg) as Hall.
  split; [|now apply starts_from_whitespace_length].
  unfold possible_moves. rewrite Hover. cbn [negb].
  apply for_append_Ok. intros k Hk.
  apply starts_from_In in Hk as [Hr (c & Hc & Hws)].
  rewrite Z.sub_0_r in Hc. rewrite Hlen in Hr.
  assert (Hk9 : 0 <= k < 9) by lia.
  destruct (Position_cell s k Hg Hk9) as (c' & Hc' & Hget & Hv).
  assert (c' = c) by congruence. subst c'.
  rewrite (whitespace_cell c Hv) in Hws. apply Ascii.eqb_eq in Hws. subst c.
  rewrite (make_move_to_in_range s k " " Hg Hk9 Hget). cbn [negb Ascii.eqb].
  change (negb (Ascii.eqb " " " ")) with false. cbv iota.
  rewrite next_state_valid; auto. now apply game_over_false_winner.
Qed.

(** * The claims *)

(** C1 (code defect).  The complement of NAUGHT should be CROSS, but
    [Mark.other] answers NAUGHT for NAUGHT: both branches of its
    conditional are [Mark.NAUGHT]. *)
Theorem other_of_NAUGHT :
  other NAUGHT = NAUGHT /\ other NAUGHT <> CROSS /\ forall m, other m = NAUGHT.
Proof.
  split; [reflexivity | split; [discriminate | intros []; reflexivity]].
Qed.

(** C2 (code defect).  In the Position where O started and has played one
    cell, the counts differ, so the turn should pass to the opposite mark
    X; [current_mark] answers O, the value of [Mark.other] on NAUGHT.  In
    general [current_mark] is the starting mark on equal counts and
    NAUGHT on different counts, whichever mark started. *)
Theorem current_mark_naught_opened :
  Position naught_opened
  /\ starting_mark naught_opened = NAUGHT
  /\ x_count (grid naught_opened) <> o_count (grid naught_opened)
  /\ current_mark naught_opened = NAUGHT
  /\ current_mark naught_opened <> opposite (starting_mark naught_opened)
  /\ (forall s, current_mark s
                = if x_count (grid s) =? o_count (grid s)
                  then starting_mark s else NAUGHT).
Proof.
  split; [split; reflexivity|].
  split; [reflexivity|]. split; [discriminate|].
  split; [reflexivity|]. split; [discriminate|].
  intros s. unfold current_mark.
  destruct (x_count (grid s) =? o_count (grid s)); [reflexivity|].
  now destruct (starting_mark s).
Qed.

(** C3.  In every Position, [winner] is [Some m] exactly when one of the
    eight lines of the catalogue has its three cells equal to [m], and it
    is [None] exactly when no line is held by any mark. *)
Theorem winner_iff_line (s : GameState) :
  Position s ->
  (forall m, winner s = Some m <->
             exists line, In line LINES /\ line_of (cells (grid s)) m line)
  /\ (winner s = None <->
      forall m line, In line LINES -> ~ line_of (cells (grid s)) m line).
Proof.
  intros Hs. pose proof Hs as [Hg _].
  assert (Hsome : forall m, winner s = Some m <->
                            completes_line (cells (grid s)) m = true).
  { intros m. split; [now apply winner_Some_completes|].
    intros Hm. destruct (winner s) as [m'|] eqn:Hw.
    - f_equal. apply (Position_single_winner s); auto.
      now apply winner_Some_completes.
    - rewrite (winner_None_completes s m Hg Hw) in Hm. discriminate. }
  split.
  - intros m. rewrite Hsome. apply completes_line_spec.
  - split.
    + intros Hw m line Hin Hl.
      assert (Hc : completes_line (cells (grid s)) m = true)
        by (apply completes_line_spec; eauto).
      apply Hsome in Hc. congruence.
    + intros Hno. destruct (winner s) as [m|] eqn:Hw; [|reflexivity].
      apply winner_Some_completes in Hw; auto.
      apply completes_line_spec in Hw as (line & Hin & Hl).
      now destruct (Hno m line Hin).
Qed.

Lemma winner_iff_line_witness :
  Position cross_won
  /\ ((forall m, winner cross_won = Some m <->
                 exists line, In line LINES
                              /\ line_of (cells (grid cross_won)) m line)
      /\ (winner cross_won = None <->
          forall m line, In line LINES
                         -> ~ line_of (cells (grid cross_won)) m line)).
Proof.
  split; [split; reflexivity | apply (winner_iff_line cross_won); split; reflexivity].
Defined.

(** C8.  [tie] holds exactly when there is no winner and no empty cell;
    [game_over] is "there is a winner, or a tie"; and the two cases never
    hold together. *)
Theorem tie_game_over_exclusive (s : GameState) :
  (tie s = true <-> winner s = None /\ empty_count (grid s) = 0)
  /\ (game_over s = true <-> (exists m, winner s = Some m) \/ tie s = true)
  /\ ~ ((exists m, winner s = Some m) /\ tie s = true).
Proof.
  unfold game_over, tie. destruct (winner s) as [m|]; simpl.
  - split; [|split].
    + split; [discriminate | intros [? _]; discriminate].
    + split; eauto.
    + intros [_ ?]; discriminate.
  - rewrite Z.eqb_eq. split; [|split].
    + split; auto. now intros [_ ?].
    + split; auto. intros [[m ?]|]; [discriminate | assumption].
    + intros [[m ?] _]; discriminate.
Qed.

(** C9.  In every Position, [winning_cells] is empty exactly when there is
    no winner; when there is a winner it is the first line of the
    catalogue, in catalogue order, whose cells all hold one mark: three
    indices in ascending order, all holding the winner. *)
Theorem winning_cells_first_line (s : GameState) :
  Position s ->
  (winning_cells s = [] <-> winner s = None)
  /\ (forall m, winner s = Some m ->
        exists k,
          nth_error LINES k = Some (winning_cells s)
          /\ line_of (cells (grid s)) m (winning_cells s)
          /\ (forall j line m', (j < k)%nat -> nth_error LINES j = Some line ->
                                ~ line_of (cells (grid s)) m' line)
          /\ List.length (winning_cells s) = 3%nat
          /\ StronglySorted Z.lt (winning_cells s)).
Proof.
  intros [Hg _]. rewrite (grid_eta (grid s)) in Hg.
  unfold winner, winning_cells.
  destruct (scan_first (cells (grid s)) WINNING_PATTERNS)
    as [(Hw & Hc & _) | (k & p & m0 & Hk & Hw & Hc & Hm & Hlt)].
  - rewrite Hw, Hc. split; [tauto | discriminate].
  - rewrite Hw, Hc.
    assert (Hline : nth_error LINES k = Some (Re.finditer_starts Re.question p)).
    { rewrite <- LINES_of_patterns. now apply map_nth_error. }
    assert (Hshape := proj1 (Forall_forall _ _) LINES_shape _
                        (nth_error_In _ _ Hline)).
    destruct Hshape as [Hlen Hsorted].
    split.
    + split; [|discriminate]. intros He. rewrite He in Hlen. discriminate.
    + intros m [= <-]. exists k. repeat apply conj; auto.
      * apply line_of_spec. rewrite <- pattern_matches_line; auto.
        eapply nth_error_In; eauto.
      * intros j line m' Hj Hnth Hl.
        rewrite <- LINES_of_patterns, nth_error_map in Hnth.
        destruct (nth_error WINNING_PATTERNS j) as [q|] eqn:Hq; [|discriminate].
        injection Hnth as <-.
        apply line_of_spec in Hl. rewrite <- pattern_matches_line in Hl; auto.
        -- rewrite (Hlt j q m' Hj Hq) in Hl. discriminate.
        -- eapply nth_error_In; eauto.
Qed.

Lemma winning_cells_first_line_witness :
  Position cross_won
  /\ winning_cells cross_won = [0; 1; 2]
  /\ ((winning_cells cross_won = [] <-> winner cross_won = None)
      /\ (forall m, winner cross_won = Some m ->
            exists k,
              nth_error LINES k = Some (winning_cells cross_won)
              /\ line_of (cells (grid cross_won)) m (winning_cells cross_won)
              /\ (forall j line m', (j < k)%nat ->
                    nth_error LINES j = Some line ->
                    ~ line_of (cells (grid cross_won)) m' line)
              /\ List.length (winning_cells cross_won) = 3%nat
              /\ StronglySorted Z.lt (winning_cells cross_won))).
Proof.
  split; [split; reflexivity|].
  split; [reflexivity|].
  apply (winning_cells_first_line cross_won); split; reflexivity.
Defined.

(** C4 (code defect).  The Position where O started and has played one
    cell is not over and has eight empty cells, so [possible_moves] should
    be a list of eight moves; instead the first [make_move_to] of its loop
    places a second O, the mark [current_mark] gets from [Mark.other], and
    the construction check of the next state raises. *)
Theorem possible_moves_naught_opened :
  Position naught_opened
  /\ game_over naught_opened = false
  /\ empty_count (grid naught_opened) = 8
  /\ possible_moves naught_opened = Raise InvalidPosition
  /\ cells (grid (next_state naught_opened 1)) = "OO       "%string.
Proof.
  repeat apply conj; reflexivity.
Qed.

(** C5.  For every Position, terminal or not, and every index from 0 to
    8, [make_move_to] raises InvalidMove exactly when the target cell is
    not empty, that is when it holds a mark; on an empty cell the call
    returns the move as soon as the next state passes the construction
    check, whether or not the game is over. *)
Theorem make_move_to_InvalidMove_iff (s : GameState) (i : Z) :
  Position s -> 0 <= i < 9 ->
  (make_move_to s i = Raise InvalidMove
   <-> Str.getitem (cells (grid s)) i <> Ok " "%char)
  /\ (make_move_to s i = Raise InvalidMove
      <-> exists m, Str.getitem (cells (grid s)) i = Ok (symbol m))
  /\ (Str.getitem (cells (grid s)) i = Ok " "%char ->
      validate_game_state (next_state s i) = true ->
      make_move_to s i = Ok (move_to s i)).
Proof.
  intros [Hg _] Hi.
  destruct (Position_cell s i Hg Hi) as (c & _ & Hc & Hv).
  rewrite (make_move_to_in_range s i c Hg Hi Hc), Hc.
  pose proof (cell_occupied c Hv) as Hocc.
  destruct (negb (Ascii.eqb c " ")) eqn:Hb.
  - split; [|split].
    + split; [|reflexivity]. intros _ [= ->]. discriminate.
    + split; [|reflexivity]. intros _.
      destruct (proj1 Hocc eq_refl) as [m ->]. now exists m.
    + intros [= ->]. discriminate.
  - assert (c = " "%char) as ->
        by (now apply Ascii.eqb_eq, negb_false_iff).
    split; [|split].
    + split; [|congruence].
      destruct (validate_game_state (next_state s i)); discriminate.
    + split; [|intros [[] [=]]].
      destruct (validate_game_state (next_state s i)); discriminate.
    + intros _ ->. reflexivity.
Qed.

Lemma make_move_to_InvalidMove_iff_witness :
  Position cross_won /\ 0 <= 8 < 9
  /\ game_over cross_won = true
  /\ make_move_to cross_won 8 = Ok (move_to cross_won 8)
  /\ (make_move_to cross_won 8 = Raise InvalidMove
      <-> Str.getitem (cells (grid cross_won)) 8 <> Ok " "%char).
Proof.
  assert (Hp : Position cross_won) by (split; reflexivity).
  assert (Hi : 0 <= 8 < 9) by lia.
  pose proof (make_move_to_InvalidMove_iff cross_won 8 Hp Hi) as (H1 & _ & H3).
  split; [exact Hp|]. split; [exact Hi|]. split; [reflexivity|].
  split; [|exact H1]. apply H3; reflexivity.
Defined.

(** C6 (as amended).  For every Position, [make_move_to] fails with
    IndexError, returning no move, exactly when the index is below -9 or
    at least 9; an index from -9 to -1 raises no index error. *)
Theorem make_move_to_IndexError_iff (s : GameState) (i : Z) :
  Position s ->
  (make_move_to s i = Raise IndexError <-> i < -9 \/ 9 <= i).
Proof.
  intros [Hg _]. pose proof (validate_grid_len _ Hg) as Hlen.
  rewrite make_move_to_unfold. split.
  - intros H.
    destruct (Z.lt_ge_cases i (-9)) as [|Hlo]; [now left|].
    destruct (Z.lt_ge_cases i 9) as [Hhi|]; [exfalso | now right].
    assert (Hget : exists c, Str.getitem (cells (grid s)) i = Ok c).
    { destruct (Z.lt_ge_cases i 0).
      - rewrite getitem_negative by lia.
        destruct (getitem_in_range (cells (grid s))
                    (Str.len (cells (grid s)) + i)) as (c & _ & Hc);
          [lia | eauto].
      - destruct (getitem_in_range (cells (grid s)) i) as (c & _ & Hc);
          [lia | eauto]. }
    destruct Hget as [c Hc]. rewrite Hc in H. cbn [bind] in H.
    destruct (negb (Ascii.eqb c " ")); [discriminate|].
    destruct (validate_grid (grid (next_state s i))); [|discriminate].
    destruct (validate_game_state (next_state s i)); discriminate.
  - intros H. rewrite getitem_out_of_range by lia. reflexivity.
Qed.

Lemma make_move_to_IndexError_iff_witness :
  Position initial
  /\ (make_move_to initial 9 = Raise IndexError <-> 9 < -9 \/ 9 <= 9).
Proof.
  split; [split; reflexivity|].
  apply (make_move_to_IndexError_iff initial 9). split; reflexivity.
Defined.

(** C6, as stated, fails: on the empty board the index -9 is outside
    [0, 9), yet [make_move_to] returns the move that places X in cell 0. *)
Lemma make_move_to_minus_nine_returns :
  Position initial
  /\ ~ (0 <= -9 < 9)
  /\ make_move_to initial (-9)
     = Ok {| mark := CROSS;
             cell_index := -9;
             before_state := initial;
             after_state := state "X        " CROSS |}.
Proof.
  split; [split; reflexivity|]. split; [lia | reflexivity].
Qed.

(** C7 (as amended).  For every Position [s] and every empty cell [i]
    from 0 to 8, the next state keeps the starting mark of [s] and its
    board is that of [s] except at [i], which holds [current_mark s]; the
    call returns the move with mark [current_mark s], index [i], before
    state [s] and that next state exactly when the next state passes the
    construction check, and raises InvalidPosition otherwise; the check
    passes whenever [s] has no winner and O is not ahead of X. *)
Theorem make_move_to_empty_cell (s : GameState) (i : Z) :
  Position s -> 0 <= i < 9 ->
  Str.getitem (cells (grid s)) i = Ok " "%char ->
  starting_mark (next_state s i) = starting_mark s
  /\ validate_grid (grid (next_state s i)) = true
  /\ (forall j, 0 <= j < 9 ->
        Str.getitem (cells (grid (next_state s i))) j
        = if j =? i then Ok (symbol (current_mark s))
          else Str.getitem (cells (grid s)) j)
  /\ make_move_to s i
     = (if validate_game_state (next_state s i)
        then Ok {| mark := current_mark s;
                   cell_index := i;
                   before_state := s;
                   after_state := next_state s i |}
        else Raise InvalidPosition)
  /\ (winner s = None -> o_count (grid s) <= x_count (grid s) ->
      validate_game_state (next_state s i) = true).
Proof.
  intros Hs Hi Hc. pose proof Hs as [Hg _].
  pose proof (next_state_grid s i Hg Hi) as Hg'.
  split; [reflexivity|]. split; [assumption|]. split; [|split].
  - intros j Hj.
    destruct (Position_cell (next_state s i) j Hg' Hj) as (c' & Hget' & -> & _).
    rewrite next_state_cells in Hget' by assumption.
    destruct (Z.eqb_spec j i) as [->|Hne].
    + rewrite get_set_nth_same in Hget'; [congruence|].
      pose proof (validate_grid_len _ Hg) as Hlen. unfold Str.len in Hlen. lia.
    + rewrite get_set_nth_other in Hget' by lia.
      destruct (Position_cell s j Hg Hj) as (c & Hget & -> & _). congruence.
  - now rewrite (make_move_to_in_range s i " " Hg Hi Hc).
  - intros Hw Hle. now apply next_state_valid.
Qed.

Lemma make_move_to_empty_cell_witness :
  Position initial /\ 0 <= 4 < 9
  /\ Str.getitem (cells (grid initial)) 4 = Ok " "%char
  /\ make_move_to initial 4
     = Ok {| mark := CROSS;
             cell_index := 4;
             before_state := initial;
             after_state := state "    X    " CROSS |}
  /\ validate_game_state (next_state initial 4) = true.
Proof.
  assert (Hp : Position initial) by (split; reflexivity).
  assert (Hi : 0 <= 4 < 9) by lia.
  assert (Hc : Str.getitem (cells (grid initial)) 4 = Ok " "%char)
    by reflexivity.
  pose proof (make_move_to_empty_cell initial 4 Hp Hi Hc)
    as (_ & _ & _ & Hmv & Hok).
  split; [exact Hp|]. split; [exact Hi|]. split; [exact Hc|]. split.
  - rewrite Hmv. reflexivity.
  - apply Hok; [reflexivity | vm_compute; discriminate].
Defined.

(** C7, as stated, fails: X has completed the top row and cell 5 is
    empty, but the move to cell 5 would complete the middle row for O, so
    the construction check of the next state raises and no move is
    returned. *)
Lemma make_move_to_cross_won_rejected :
  Position cross_won
  /\ Str.getitem (cells (grid cross_won)) 5 = Ok " "%char
  /\ cells (grid (next_state cross_won 5)) = "XXXOOO   "%string
  /\ make_move_to cross_won 5 = Raise InvalidPosition.
Proof.
  split; [split; reflexivity|]. repeat apply conj; reflexivity.
Qed.

(** C10 (as amended).  For every Position and every index from -9 to -2,
    [make_move_to] raises no index error and does what it does at the
    index nine higher: it raises InvalidMove exactly when that cell holds
    a mark, and otherwise has the outcome of the move to that cell, a
    returned move keeping the negative index as its [cell_index] and
    having the same mark, before state and after state. *)
Theorem make_move_to_negative_index (s : GameState) (i : Z) :
  Position s -> -9 <= i <= -2 ->
  make_move_to s i <> Raise IndexError
  /\ (make_move_to s i = Raise InvalidMove
      <-> exists m, Str.getitem (cells (grid s)) (i + 9) = Ok (symbol m))
  /\ make_move_to s i = fmap (with_cell_index i) (make_move_to s (i + 9))
  /\ (forall mv, make_move_to s (i + 9) = Ok mv ->
        exists mv', make_move_to s i = Ok mv'
                    /\ cell_index mv' = i
                    /\ mark mv' = mark mv
                    /\ before_state mv' = before_state mv
                    /\ after_state mv' = after_state mv).
Proof.
  intros [Hg _] Hi.
  pose proof (make_move_to_negative s i Hg Hi) as Heq.
  assert (Hi9 : 0 <= i + 9 < 9) by lia.
  destruct (Position_cell s (i + 9) Hg Hi9) as (c & _ & Hc & Hv).
  pose proof (make_move_to_in_range s (i + 9) c Hg Hi9 Hc) as Hm.
  pose proof (cell_occupied c Hv) as Hocc.
  rewrite Heq, Hm, Hc.
  destruct (negb (Ascii.eqb c " ")) eqn:Hb; cbn [fmap bind].
  - split; [discriminate|]. split; [|split; [reflexivity|discriminate]].
    split; [|reflexivity]. intros _.
    destruct (proj1 Hocc eq_refl) as [m ->]. now exists m.
  - assert (c = " "%char) as ->
        by (now apply Ascii.eqb_eq, negb_false_iff).
    destruct (validate_game_state (next_state s (i + 9))); cbn [fmap bind].
    + split; [discriminate|]. split; [|split; [reflexivity|]].
      * split; [discriminate | intros [[] [=]]].
      * intros mv [= <-]. eexists. split; [reflexivity|].
        repeat apply conj; reflexivity.
    + split; [discriminate|]. split; [|split; [reflexivity|discriminate]].
      split; [discriminate | intros [[] [=]]].
Qed.

Lemma make_move_to_negative_index_witness :
  Position initial /\ -9 <= -5 <= -2
  /\ make_move_to initial (-5)
     = Ok {| mark := CROSS;
             cell_index := -5;
             before_state := initial;
             after_state := state "    X    " CROSS |}
  /\ make_move_to initial (-5)
     = fmap (with_cell_index (-5)) (make_move_to initial (-5 + 9)).
Proof.
  assert (Hp : Position initial) by (split; reflexivity).
  assert (Hi : -9 <= -5 <= -2) by lia.
  pose proof (make_move_to_negative_index initial (-5) Hp Hi)
    as (_ & _ & Heq & _).
  split; [exact Hp|]. split; [exact Hi|]. split; [|exact Heq].
  rewrite Heq. reflexivity.
Defined.

(** C10, as stated, fails: with X having completed the top row, index -4
    addresses the empty cell 5, and the call neither raises InvalidMove
    nor returns a move; the construction check of the next state raises,
    as it does for index 5. *)
Lemma make_move_to_minus_four_rejected :
  Position cross_won
  /\ Str.getitem (cells (grid cross_won)) (-4 + 9) = Ok " "%char
  /\ make_move_to cross_won (-4) = Raise InvalidPosition
  /\ make_move_to cross_won (-4 + 9) = Raise InvalidPosition.
Proof.
  split; [split; reflexivity|]. repeat apply conj; reflexivity.
Qed.

(** * Further properties of the model *)

(** ** The counters of [Grid] *)

Lemma count_bounds (c : ascii) (s : string) :
  0 <= Str.count c s <= Str.len s.
Proof.
  unfold Str.len. induction s as [|a s IH]; simpl String.length; simpl Str.count.
  - lia.
  - destruct (Ascii.eqb a c); lia.
Qed.

Lemma count_three (s : string) :
  Str.count "X" s + Str.count "O" s + Str.count " " s <= Str.len s
  /\ (Str.all cell_value s = true ->
      Str.count "X" s + Str.count "O" s + Str.count " " s = Str.len s).
Proof.
  unfold Str.len. induction s as [|a s [IHle IHeq]].
  - split; reflexivity.
  - cbn [Str.count Str.all String.length]. unfold cell_value.
    destruct (Ascii.eqb_spec a "X"), (Ascii.eqb_spec a "O"),
      (Ascii.eqb_spec a " "); subst; try discriminate; cbn [orb andb];
      (split; [lia | intros H; try discriminate; specialize (IHeq H); lia]).
Qed.

Lemma count_full (c : ascii) (s : string) :
  Str.count c s = Str.len s -> Str.all (fun a => Ascii.eqb a c) s = true.
Proof.
  unfold Str.len. induction s as [|a s IH]; [reflexivity|].
  cbn [Str.count Str.all String.length]. intros H.
  pose proof (count_bounds c s) as Hb. unfold Str.len in Hb.
  destruct (Ascii.eqb a c); [apply IH; lia | lia].
Qed.

(** X1.  The three counters never add up to more than the number of
    cells, none is negative, and on a board whose cells are all blanks,
    Xs and Os they add up to exactly that number: 9 on a well-formed
    grid. *)
Theorem counters_partition (g : Grid) :
  0 <= x_count g /\ 0 <= o_count g /\ 0 <= empty_count g
  /\ x_count g + o_count g + empty_count g <= Str.len (cells g)
  /\ (validate_grid g = true ->
      x_count g + o_count g + empty_count g = 9).
Proof.
  unfold x_count, o_count, empty_count.
  pose proof (count_bounds "X" (cells g)).
  pose proof (count_bounds "O" (cells g)).
  pose proof (count_bounds " " (cells g)).
  destruct (count_three (cells g)) as [Hle Heq].
  repeat (split; [lia|]). intros Hg.
  rewrite Heq by now apply validate_grid_all.
  now apply validate_grid_len.
Qed.

(** X2.  On a board of nine cells, [game_not_started] holds exactly when
    every cell is blank; the game is then not over, nobody has won, and
    it is the starting mark's turn. *)
Theorem game_not_started_blank (s : GameState) :
  String.length (cells (grid s)) = 9%nat ->
  (game_not_started s = true <-> cells (grid s) = "         "%string)
  /\ (game_not_started s = true ->
      winner s = None /\ tie s = false /\ game_over s = false
      /\ current_mark s = starting_mark s).
Proof.
  intros Hlen.
  assert (Hiff : game_not_started s = true
                 <-> cells (grid s) = "         "%string).
  { unfold game_not_started, empty_count. rewrite Z.eqb_eq. split.
    - intros H.
      assert (Hfull : Str.count " " (cells (grid s)) = Str.len (cells (grid s)))
        by (unfold Str.len; rewrite Hlen; exact H).
      apply count_full in Hfull. revert Hlen Hfull.
      generalize (cells (grid s)) as cs. intros cs Hlen Hfull.
      do 9 (destruct cs as [|? cs]; [discriminate|]).
      destruct cs; [|discriminate].
      cbn [Str.all] in Hfull.
      repeat (apply andb_true_iff in Hfull as [?%Ascii.eqb_eq Hfull]).
      now subst.
    - intros ->. reflexivity. }
  split; [exact Hiff|].
  intros H. apply Hiff in H.
  unfold game_over, tie, winner, current_mark, empty_count,
    x_count, o_count.
  rewrite H. repeat apply conj; reflexivity.
Qed.

Lemma game_not_started_blank_witness :
  String.length (cells (grid initial)) = 9%nat
  /\ game_not_started initial = true
  /\ ((game_not_started initial = true
       <-> cells (grid initial) = "         "%string)
      /\ (game_not_started initial = true ->
          winner initial = None /\ tie initial = false
          /\ game_over initial = false
          /\ current_mark initial = starting_mark initial)).
Proof.
  split; [reflexivity|]. split; [reflexivity|].
  apply (game_not_started_blank initial). reflexivity.
Defined.

(** ** What [make_move_to] returns *)

Lemma next_state_minus_one_length (s : GameState) :
  validate_grid (grid s) = true ->
  String.length (cells (grid (next_state s (-1)))) = 18%nat.
Proof.
  intros Hg. rewrite (grid_eta (grid s)) in Hg.
  destruct (validate_grid_nine _ Hg) as (c0&c1&c2&c3&c4&c5&c6&c7&c8&Hcs&_).
  unfold next_state, state. cbn [grid cells]. rewrite Hcs.
  destruct (current_mark s); reflexivity.
Qed.

Lemma make_move_to_minus_one_eq (s : GameState) :
  validate_grid (grid s) = true ->
  exists c,
    Str.getitem (cells (grid s)) 8 = Ok c
    /\ Str.getitem (cells (grid s)) (-1) = Ok c
    /\ make_move_to s (-1)
       = if Ascii.eqb c " " then Raise MalformedBoard else Raise InvalidMove.
Proof.
  intros Hg. pose proof (validate_grid_len _ Hg) as Hlen.
  destruct (Position_cell s 8 Hg ltac:(lia)) as (c & _ & Hc & _).
  assert (Hneg : Str.getitem (cells (grid s)) (-1) = Ok c).
  { rewrite getitem_negative by lia. now rewrite Hlen. }
  exists c. repeat apply conj; auto.
  rewrite make_move_to_unfold, Hneg. cbn [bind].
  destruct (Ascii.eqb c " "); cbn [negb]; [|reflexivity].
  unfold validate_grid at 1. rewrite next_state_minus_one_length by assumption.
  reflexivity.
Qed.

Lemma make_move_to_in_range_Ok (s : GameState) (j : Z) (mv : Move) :
  validate_grid (grid s) = true -> 0 <= j < 9 ->
  make_move_to s j = Ok mv ->
  Str.getitem (cells (grid s)) j = Ok " "%char
  /\ validate_game_state (next_state s j) = true
  /\ mv = move_to s j.
Proof.
  intros Hg Hj H.
  destruct (Position_cell s j Hg Hj) as (c & _ & Hc & _).
  rewrite (make_move_to_in_range s j c Hg Hj Hc) in H.
  destruct (negb (Ascii.eqb c " ")) eqn:Hb; [discriminate|].
  apply negb_false_iff, Ascii.eqb_eq in Hb. subst c.
  destruct (validate_game_state (next_state s j)); [|discriminate].
  injection H as <-. auto.
Qed.

(** A returned move comes from an index in [0, 9) or in [-9, -2], and is
    the move to the cell [j] that the index addresses. *)
Lemma make_move_to_Ok_inv (s : GameState) (i : Z) (mv : Move) :
  validate_grid (grid s) = true ->
  make_move_to s i = Ok mv ->
  exists j,
    0 <= j < 9
    /\ (i = j \/ (-9 <= i <= -2 /\ j = i + 9))
    /\ Str.getitem (cells (grid s)) i = Ok " "%char
    /\ Str.getitem (cells (grid s)) j = Ok " "%char
    /\ validate_game_state (next_state s j) = true
    /\ mv = with_cell_index i (move_to s j).
Proof.
  intros Hg H. pose proof (validate_grid_len _ Hg) as Hlen.
  destruct (Z.lt_ge_cases i (-9)) as [Hlo|Hlo].
  { rewrite make_move_to_unfold, getitem_out_of_range in H by lia.
    discriminate. }
  destruct (Z.lt_ge_cases i 9) as [Hhi|Hhi].
  2:{ rewrite make_move_to_unfold, getitem_out_of_range in H by lia.
      discriminate. }
  destruct (Z.eq_dec i (-1)) as [->|Hm1].
  { destruct (make_move_to_minus_one_eq s Hg) as (c & _ & _ & Heq).
    rewrite Heq in H. destruct (Ascii.eqb c " "); discriminate. }
  destruct (Z.lt_ge_cases i 0) as [Hneg|Hpos].
  - rewrite make_move_to_negative in H by (assumption || lia).
    destruct (make_move_to s (i + 9)) as [mv'|e] eqn:H'; [|discriminate].
    cbn [fmap bind] in H. injection H as <-.
    apply make_move_to_in_range_Ok in H' as (Hc & Hv & ->);
      [|assumption|lia].
    exists (i + 9). repeat apply conj; auto; try lia.
    rewrite getitem_negative by lia. rewrite Hlen.
    now replace (9 + i) with (i + 9) by lia.
  - apply make_move_to_in_range_Ok in H as (Hc & Hv & ->);
      [|assumption|lia].
    exists i. repeat apply conj; auto; try lia.
Qed.

Lemma next_state_getitem (s : GameState) (j : Z) :
  validate_grid (grid s) = true -> 0 <= j < 9 ->
  Str.getitem (cells (grid (next_state s j))) j
  = Ok (symbol (current_mark s)).
Proof.
  intros Hg Hj. pose proof (next_state_grid s j Hg Hj) as Hg'.
  destruct (Position_cell (next_state s j) j Hg' Hj) as (c & Hget & -> & _).
  rewrite next_state_cells in Hget by assumption.
  rewrite get_set_nth_same in Hget; [congruence|].
  pose proof (validate_grid_len _ Hg) as Hlen. unfold Str.len in Hlen. lia.
Qed.

Lemma next_state_empty_count (s : GameState) (j : Z) :
  validate_grid (grid s) = true -> 0 <= j < 9 ->
  Str.getitem (cells (grid s)) j = Ok " "%char ->
  empty_count (grid (next_state s j)) = empty_count (grid s) - 1.
Proof.
  intros Hg Hj Hc.
  destruct (Position_cell s j Hg Hj) as (c & Hget & Hc' & _).
  assert (c = " "%char) by congruence. subst c.
  unfold empty_count. rewrite next_state_cells by assumption.
  rewrite (count_set_nth _ _ _ _ _ Hget).
  destruct (current_mark s); simpl; lia.
Qed.

(** X3.  The index -1 never yields a move: it reads the last cell, and
    when that cell is empty the new board [cells[:-1] + mark + cells[0:]]
    has 18 cells, which the construction of [Grid] refuses; when the cell
    holds a mark the call raises InvalidMove. *)
Theorem make_move_to_minus_one (s : GameState) :
  Position s ->
  String.length (cells (grid (next_state s (-1)))) = 18%nat
  /\ (forall mv, make_move_to s (-1) <> Ok mv)
  /\ exists c,
       Str.getitem (cells (grid s)) 8 = Ok c
       /\ make_move_to s (-1)
          = if Ascii.eqb c " " then Raise MalformedBoard else Raise InvalidMove.
Proof.
  intros [Hg _].
  destruct (make_move_to_minus_one_eq s Hg) as (c & Hc & _ & Heq).
  split; [now apply next_state_minus_one_length|]. split.
  - intros mv. rewrite Heq. destruct (Ascii.eqb c " "); discriminate.
  - now exists c.
Qed.

Lemma make_move_to_minus_one_witness :
  Position initial
  /\ make_move_to initial (-1) = Raise MalformedBoard
  /\ (String.length (cells (grid (next_state initial (-1)))) = 18%nat
      /\ (forall mv, make_move_to initial (-1) <> Ok mv)
      /\ exists c,
           Str.getitem (cells (grid initial)) 8 = Ok c
           /\ make_move_to initial (-1)
              = if Ascii.eqb c " " then Raise MalformedBoard
                else Raise InvalidMove).
Proof.
  split; [split; reflexivity|]. split; [reflexivity|].
  apply (make_move_to_minus_one initial). split; reflexivity.
Defined.

(** X4.  Whatever the index, a move that [make_move_to] returns on a
    Position was made on an empty cell, through an index in [0, 9) or in
    [-9, -2]; it records the current mark, the index as given and the
    Position itself, and its after state is again a Position, with the
    same starting mark, the mark in the addressed cell, one empty cell
    fewer, one more cell of the mark and as many of the other mark. *)
Theorem make_move_to_returned (s : GameState) (i : Z) (mv : Move) :
  Position s ->
  make_move_to s i = Ok mv ->
  (0 <= i < 9 \/ -9 <= i <= -2)
  /\ Str.getitem (cells (grid s)) i = Ok " "%char
  /\ mark mv = current_mark s
  /\ cell_index mv = i
  /\ before_state mv = s
  /\ Position (after_state mv)
  /\ starting_mark (after_state mv) = starting_mark s
  /\ Str.getitem (cells (grid (after_state mv))) i = Ok (symbol (mark mv))
  /\ empty_count (grid (after_state mv)) = empty_count (grid s) - 1
  /\ count_of (mark mv) (grid (after_state mv))
     = count_of (mark mv) (grid s) + 1
  /\ count_of (opposite (mark mv)) (grid (after_state mv))
     = count_of (opposite (mark mv)) (grid s).
Proof.
  intros [Hg _] H.
  destruct (make_move_to_Ok_inv s i mv Hg H)
    as (j & Hj & Hij & Hci & Hcj & Hv & ->).
  pose proof (next_state_grid s j Hg Hj) as Hg'.
  destruct (next_state_counts s j Hg Hj Hcj) as [Hx Ho].
  cbn [with_cell_index move_to mark cell_index before_state after_state].
  split; [lia|]. split; [assumption|].
  do 3 (split; [reflexivity|]).
  split; [now split|]. split; [reflexivity|]. split.
  { destruct Hij as [->|[Hneg ->]]; [now apply next_state_getitem|].
    rewrite getitem_negative
      by (rewrite (validate_grid_len _ Hg'); lia).
    rewrite (validate_grid_len _ Hg').
    replace (9 + i) with (i + 9) by lia. now apply next_state_getitem. }
  split; [now apply next_state_empty_count|].
  destruct (current_mark s); cbn [count_of opposite Mark_is] in *; lia.
Qed.

Lemma make_move_to_returned_witness :
  Position initial
  /\ make_move_to initial (-5) = Ok (with_cell_index (-5) (move_to initial 4))
  /\ empty_count (grid (next_state initial 4)) = empty_count (grid initial) - 1
  /\ Position (next_state initial 4).
Proof.
  assert (Hp : Position initial) by (split; reflexivity).
  assert (H : make_move_to initial (-5)
              = Ok (with_cell_index (-5) (move_to initial 4)))
    by reflexivity.
  pose proof (make_move_to_returned initial (-5) _ Hp H)
    as (_ & _ & _ & _ & _ & Hpos & _ & _ & He & _).
  split; [exact Hp|]. split; [exact H|]. split; [exact He | exact Hpos].
Defined.

Lemma make_move_to_occupied (s : GameState) (j : Z) (m : Mark) :
  validate_grid (grid s) = true -> 0 <= j < 9 ->
  Str.getitem (cells (grid s)) j = Ok (symbol m) ->
  make_move_to s j = Raise InvalidMove.
Proof.
  intros Hg Hj Hc. rewrite (make_move_to_in_range s j _ Hg Hj Hc).
  now destruct m.
Qed.

(** X5.  A cell cannot be played twice: once a move has been returned,
    the same index on its after state raises InvalidMove. *)
Theorem make_move_to_again (s : GameState) (i : Z) (mv : Move) :
  Position s ->
  make_move_to s i = Ok mv ->
  make_move_to (after_state mv) i = Raise InvalidMove.
Proof.
  intros [Hg _] H.
  destruct (make_move_to_Ok_inv s i mv Hg H)
    as (j & Hj & Hij & _ & _ & _ & ->).
  cbn [with_cell_index move_to after_state].
  pose proof (next_state_grid s j Hg Hj) as Hg'.
  pose proof (next_state_getitem s j Hg Hj) as Hc.
  pose proof (make_move_to_occupied _ j _ Hg' Hj Hc) as Hinv.
  destruct Hij as [->|[Hneg ->]]; [assumption|].
  rewrite make_move_to_negative by assumption. now rewrite Hinv.
Qed.

Lemma make_move_to_again_witness :
  Position initial
  /\ make_move_to initial 4 = Ok (move_to initial 4)
  /\ make_move_to (after_state (move_to initial 4)) 4 = Raise InvalidMove.
Proof.
  assert (Hp : Position initial) by (split; reflexivity).
  assert (H : make_move_to initial 4 = Ok (move_to initial 4)) by reflexivity.
  split; [exact Hp|]. split; [exact H|].
  exact (make_move_to_again initial 4 _ Hp H).
Defined.

(** When O is ahead, the mark to place is O again, and the next state
    fails the construction check. *)
Lemma next_state_invalid_O_ahead (s : GameState) (j : Z) :
  Position s -> 0 <= j < 9 ->
  Str.getitem (cells (grid s)) j = Ok " "%char ->
  x_count (grid s) < o_count (grid s) ->
  validate_game_state (next_state s j) = false.
Proof.
  intros Hs Hj Hc Hlt. pose proof Hs as [Hg _].
  destruct (validate_game_state (next_state s j)) eqn:Hv; [|reflexivity].
  assert (Hp : Position (next_state s j))
    by (split; [now apply next_state_grid | assumption]).
  apply Position_balance in Hp.
  destruct (next_state_counts s j Hg Hj Hc) as [Hx Ho].
  rewrite Hx, Ho in Hp. unfold current_mark in Hp.
  destruct (Z.eqb_spec (x_count (grid s)) (o_count (grid s))); [lia|].
  destruct (starting_mark s); simpl in Hp; lia.
Qed.

(** X6.  On a Position where O has more cells than X, [make_move_to]
    returns no move, whatever the index: the mark it would place is O
    again, whichever mark started. *)
Theorem make_move_to_O_ahead (s : GameState) (i : Z) :
  Position s ->
  x_count (grid s) < o_count (grid s) ->
  current_mark s = NAUGHT /\ forall mv, make_move_to s i <> Ok mv.
Proof.
  intros Hs Hlt. split.
  - unfold current_mark.
    destruct (Z.eqb_spec (x_count (grid s)) (o_count (grid s))); [lia|].
    now destruct (starting_mark s).
  - intros mv H. pose proof Hs as [Hg _].
    destruct (make_move_to_Ok_inv s i mv Hg H)
      as (j & Hj & _ & _ & Hc & Hv & _).
    rewrite (next_state_invalid_O_ahead s j Hs Hj Hc Hlt) in Hv.
    discriminate.
Qed.

Lemma make_move_to_O_ahead_witness :
  Position naught_opened
  /\ x_count (grid naught_opened) < o_count (grid naught_opened)
  /\ (current_mark naught_opened = NAUGHT
      /\ forall mv, make_move_to naught_opened 1 <> Ok mv).
Proof.
  assert (Hp : Position naught_opened) by (split; reflexivity).
  assert (Hlt : x_count (grid naught_opened) < o_count (grid naught_opened))
    by reflexivity.
  split; [exact Hp|]. split; [exact Hlt|].
  exact (make_move_to_O_ahead naught_opened 1 Hp Hlt).
Defined.

(** X7.  When X started, turns alternate: after a returned move it is the
    turn of the opposite of the mark just placed. *)
Theorem make_move_to_alternates (s : GameState) (i : Z) (mv : Move) :
  Position s ->
  starting_mark s = CROSS ->
  make_move_to s i = Ok mv ->
  current_mark (after_state mv) = opposite (mark mv).
Proof.
  intros Hs Hstart H. pose proof Hs as [Hg _].
  pose proof (Position_balance s Hs) as Hb.
  destruct (make_move_to_Ok_inv s i mv Hg H)
    as (j & Hj & _ & _ & Hc & Hv & ->).
  cbn [with_cell_index move_to after_state mark].
  destruct (next_state_counts s j Hg Hj Hc) as [Hx Ho].
  assert (Hle : o_count (grid s) <= x_count (grid s)).
  { destruct (Z.lt_ge_cases (x_count (grid s)) (o_count (grid s))) as [Hlt|];
      [|assumption].
    rewrite (next_state_invalid_O_ahead s j Hs Hj Hc Hlt) in Hv.
    discriminate. }
  unfold current_mark at 1. rewrite Hx, Ho.
  change (starting_mark (next_state s j)) with (starting_mark s).
  unfold current_mark. rewrite Hstart.
  destruct (Z.eqb_spec (x_count (grid s)) (o_count (grid s))) as [He|Hne];
    cbn [Mark_is other opposite].
  - destruct (Z.eqb_spec (x_count (grid s) + 1) (o_count (grid s) + 0));
      [lia | reflexivity].
  - destruct (Z.eqb_spec (x_count (grid s) + 0) (o_count (grid s) + 1));
      [reflexivity | lia].
Qed.

Lemma make_move_to_alternates_witness :
  Position initial /\ starting_mark initial = CROSS
  /\ make_move_to initial 4 = Ok (move_to initial 4)
  /\ current_mark (after_state (move_to initial 4))
     = opposite (mark (move_to initial 4)).
Proof.
  assert (Hp : Position initial) by (split; reflexivity).
  assert (H : make_move_to initial 4 = Ok (move_to initial 4)) by reflexivity.
  split; [exact Hp|]. split; [reflexivity|]. split; [exact H|].
  exact (make_move_to_alternates initial 4 _ Hp eq_refl H).
Defined.

(** ** What [possible_moves] returns *)

Lemma starts_from_In_conv (cls : ascii -> bool) :
  forall s k0 k c,
    k0 <= k -> String.get (Z.to_nat (k - k0)) s = Some c -> cls c = true ->
    In k (Re.starts_from cls s k0).
Proof.
  induction s as [|a s IH]; intros k0 k c Hk Hget Hc; [discriminate|].
  cbn [Re.starts_from].
  destruct (Z.eq_dec k k0) as [->|Hne].
  - rewrite Z.sub_diag in Hget. cbn in Hget. injection Hget as ->.
    rewrite Hc. now left.
  - replace (Z.to_nat (k - k0)) with (S (Z.to_nat (k - (k0 + 1)))) in Hget
      by lia.
    cbn [String.get] in Hget.
    assert (Hin : In k (Re.starts_from cls s (k0 + 1)))
      by (apply (IH _ _ c); auto; lia).
    destruct (cls a); [now right | assumption].
Qed.

Lemma starts_from_sorted (cls : ascii -> bool) :
  forall s k0, StronglySorted Z.lt (Re.starts_from cls s k0).
Proof.
  induction s as [|a s IH]; intros k0; cbn [Re.starts_from]; [constructor|].
  destruct (cls a); [|apply IH].
  constructor; [apply IH|].
  apply Forall_forall. intros k Hk. apply starts_from_In in Hk. lia.
Qed.

(** The offsets [possible_moves] iterates over are the empty cells. *)
Lemma empty_cells_spec (s : GameState) (k : Z) :
  validate_grid (grid s) = true ->
  In k (Re.finditer_starts Re.whitespace (cells (grid s)))
  <-> 0 <= k < 9 /\ Str.getitem (cells (grid s)) k = Ok " "%char.
Proof.
  intros Hg. pose proof (validate_grid_len _ Hg) as Hlen.
  unfold Re.finditer_starts. split.
  - intros Hk. apply starts_from_In in Hk as [Hr (c & Hc & Hws)].
    rewrite Z.sub_0_r in Hc. rewrite Hlen in Hr.
    assert (Hk9 : 0 <= k < 9) by lia. split; [assumption|].
    destruct (Position_cell s k Hg Hk9) as (c' & Hc' & Hget & Hv).
    assert (c' = c) by congruence. subst c'.
    rewrite (whitespace_cell c Hv) in Hws. apply Ascii.eqb_eq in Hws.
    now subst c.
  - intros [Hk9 Hget].
    destruct (Position_cell s k Hg Hk9) as (c & Hc & Hget' & _).
    assert (c = " "%char) by congruence. subst c.
    apply (starts_from_In_conv _ _ _ _ " "); [lia | | reflexivity].
    now rewrite Z.sub_0_r.
Qed.

Lemma empty_cells_nonempty (s : GameState) :
  validate_grid (grid s) = true -> game_over s = false ->
  exists k rest,
    Re.finditer_starts Re.whitespace (cells (grid s)) = k :: rest.
Proof.
  intros Hg Hover.
  pose proof (starts_from_whitespace_length (cells (grid s)) 0
                (validate_grid_all _ Hg)) as Hlen.
  pose proof (game_over_false_winner s Hover) as Hw.
  unfold game_over, tie in Hover. rewrite Hw in Hover. cbn in Hover.
  apply Z.eqb_neq in Hover. unfold Re.finditer_starts.
  destruct (Re.starts_from Re.whitespace (cells (grid s)) 0) as [|k rest];
    [|eauto].
  unfold empty_count in Hover. cbn in Hlen. congruence.
Qed.

(** The three outcomes of [possible_moves] on a Position. *)
Lemma possible_moves_eq (s : GameState) :
  Position s ->
  possible_moves s
  = if game_over s then Ok []
    else if o_count (grid s) <=? x_count (grid s)
         then Ok (map (move_to s)
                    (Re.finditer_starts Re.whitespace (cells (grid s))))
         else Raise InvalidPosition.
Proof.
  intros Hs. pose proof Hs as [Hg _].
  destruct (game_over s) eqn:Hover; [now apply possible_moves_game_over|].
  destruct (Z.leb_spec (o_count (grid s)) (x_count (grid s))) as [Hle|Hlt].
  - now apply possible_moves_playing.
  - destruct (empty_cells_nonempty s Hg Hover) as (k & rest & Hk).
    assert (Hin : In k (Re.finditer_starts Re.whitespace (cells (grid s))))
      by (rewrite Hk; now left).
    apply (empty_cells_spec s k Hg) in Hin as [Hk9 Hget].
    unfold possible_moves. rewrite Hover, Hk. cbn [negb for_append].
    rewrite (make_move_to_in_range s k " " Hg Hk9 Hget).
    rewrite (next_state_invalid_O_ahead s k Hs Hk9 Hget Hlt). reflexivity.
Qed.

(** X8.  On a Position, [possible_moves] returns the empty list exactly
    when the game is over; it raises exactly when the game is not over
    and O has more cells than X, and the exception is then the one of the
    construction check of the next state. *)
Theorem possible_moves_outcomes (s : GameState) :
  Position s ->
  (possible_moves s = Ok [] <-> game_over s = true)
  /\ (possible_moves s = Raise InvalidPosition
      <-> game_over s = false /\ x_count (grid s) < o_count (grid s))
  /\ (forall e, possible_moves s = Raise e -> e = InvalidPosition).
Proof.
  intros Hs. pose proof Hs as [Hg _].
  rewrite (possible_moves_eq s Hs).
  destruct (game_over s) eqn:Hover.
  - split; [tauto|]. split; [|discriminate].
    split; [discriminate | intros [? _]; discriminate].
  - destruct (empty_cells_nonempty s Hg Hover) as (k & rest & Hk).
    rewrite Hk.
    destruct (Z.leb_spec (o_count (grid s)) (x_count (grid s))) as [Hle|Hlt].
    + split; [split; discriminate|]. split; [|discriminate].
      split; [discriminate | intros [_ ?]; lia].
    + split; [split; discriminate|]. split; [tauto|].
      now intros e [= <-].
Qed.

Lemma possible_moves_outcomes_witness :
  Position cross_won
  /\ game_over cross_won = true
  /\ ((possible_moves cross_won = Ok [] <-> game_over cross_won = true)
      /\ (possible_moves cross_won = Raise InvalidPosition
          <-> game_over cross_won = false
              /\ x_count (grid cross_won) < o_count (grid cross_won))
      /\ (forall e, possible_moves cross_won = Raise e -> e = InvalidPosition)).
Proof.
  split; [split; reflexivity|]. split; [reflexivity|].
  apply (possible_moves_outcomes cross_won). split; reflexivity.
Defined.

(** X9.  While the game is on and O is not ahead of X, [possible_moves]
    returns one move per empty cell: as many moves as [empty_count], their
    indices in strictly ascending order and exactly the indices of the
    empty cells, each move being the one [make_move_to] returns for its
    index, with the current mark, the Position as before state and a
    Position as after state. *)
Theorem possible_moves_listing (s : GameState) :
  Position s ->
  game_over s = false ->
  o_count (grid s) <= x_count (grid s) ->
  exists mvs,
    possible_moves s = Ok mvs
    /\ Z.of_nat (List.length mvs) = empty_count (grid s)
    /\ StronglySorted Z.lt (map cell_index mvs)
    /\ (forall k, In k (map cell_index mvs)
                  <-> 0 <= k < 9 /\ Str.getitem (cells (grid s)) k = Ok " "%char)
    /\ (forall mv, In mv mvs ->
          make_move_to s (cell_index mv) = Ok mv
          /\ mark mv = current_mark s
          /\ before_state mv = s
          /\ Position (after_state mv)).
Proof.
  intros Hs Hover Hle. pose proof Hs as [Hg _].
  destruct (possible_moves_playing s Hs Hover Hle) as [Heq Hlen].
  exists (map (move_to s) (Re.finditer_starts Re.whitespace (cells (grid s)))).
  assert (Hidx : map cell_index
                   (map (move_to s)
                      (Re.finditer_starts Re.whitespace (cells (grid s))))
                 = Re.finditer_starts Re.whitespace (cells (grid s))).
  { rewrite map_map. cbn [move_to cell_index]. apply map_id. }
  split; [assumption|]. split; [now rewrite length_map|].
  rewrite Hidx. split; [apply starts_from_sorted|].
  split; [intros k; now apply empty_cells_spec|].
  intros mv Hmv. apply in_map_iff in Hmv as (k & <- & Hk).
  apply (empty_cells_spec s k Hg) in Hk as [Hk9 Hget].
  pose proof (game_over_false_winner s Hover) as Hw.
  pose proof (next_state_valid s k Hs Hk9 Hget Hw Hle) as Hv.
  cbn [move_to cell_index mark before_state after_state].
  split; [|split; [reflexivity|split; [reflexivity|]]].
  - rewrite (make_move_to_in_range s k " " Hg Hk9 Hget), Hv. reflexivity.
  - split; [now apply next_state_grid | assumption].
Qed.

Lemma possible_moves_listing_witness :
  Position initial /\ game_over initial = false
  /\ o_count (grid initial) <= x_count (grid initial)
  /\ exists mvs,
       possible_moves initial = Ok mvs
       /\ Z.of_nat (List.length mvs) = empty_count (grid initial)
       /\ StronglySorted Z.lt (map cell_index mvs)
       /\ (forall k, In k (map cell_index mvs)
                     <-> 0 <= k < 9
                         /\ Str.getitem (cells (grid initial)) k = Ok " "%char)
       /\ (forall mv, In mv mvs ->
             make_move_to initial (cell_index mv) = Ok mv
             /\ mark mv = current_mark initial
             /\ before_state mv = initial
             /\ Position (after_state mv)).
Proof.
  assert (Hp : Position initial) by (split; reflexivity).
  assert (Hle : o_count (grid initial) <= x_count (grid initial))
    by (vm_compute; discriminate).
  split; [exact Hp|]. split; [reflexivity|]. split; [exact Hle|].
  exact (possible_moves_listing initial Hp eq_refl Hle).
Defined.

(** ** Winners *)

(** X10.  On every well-formed board, Position or not, [winner] and
    [winning_cells] agree: with a winner, the winning cells are a line of
    the catalogue whose cells all hold the winner; without one, there are
    no winning cells and no line is held by a mark. *)
Theorem winner_winning_cells_agree (s : GameState) :
  validate_grid (grid s) = true ->
  match winner s with
  | Some m => In (winning_cells s) LINES
              /\ line_of (cells (grid s)) m (winning_cells s)
  | None => winning_cells s = []
            /\ forall m line, In line LINES
                              -> ~ line_of (cells (grid s)) m line
  end.
Proof.
  intros Hg. pose proof Hg as Hg0. rewrite (grid_eta (grid s)) in Hg.
  unfold winner, winning_cells.
  destruct (scan_first (cells (grid s)) WINNING_PATTERNS)
    as [(Hw & Hc & Hn) | (k & p & m & Hk & Hw & Hc & Hm & _)];
    rewrite Hw, Hc.
  - split; [reflexivity|]. intros m line Hin Hl.
    rewrite <- LINES_of_patterns in Hin.
    apply in_map_iff in Hin as (p & <- & Hp).
    apply line_of_spec in Hl. rewrite <- pattern_matches_line in Hl by auto.
    rewrite (Hn p m Hp) in Hl. discriminate.
  - pose proof (nth_error_In _ _ Hk) as Hp. split.
    + rewrite <- LINES_of_patterns. now apply in_map.
    + apply line_of_spec. now rewrite <- pattern_matches_line.
Qed.

Lemma winner_winning_cells_agree_witness :
  validate_grid (grid two_rows) = true
  /\ validate_game_state two_rows = false
  /\ winner two_rows = Some CROSS
  /\ match winner two_rows with
     | Some m => In (winning_cells two_rows) LINES
                 /\ line_of (cells (grid two_rows)) m (winning_cells two_rows)
     | None => winning_cells two_rows = []
               /\ forall m line, In line LINES
                                 -> ~ line_of (cells (grid two_rows)) m line
     end.
Proof.
  split; [reflexivity|]. split; [reflexivity|]. split; [reflexivity|].
  apply (winner_winning_cells_agree two_rows). reflexivity.
Defined.

Lemma Position_winner_of_completes (s : GameState) (m : Mark) :
  Position s ->
  completes_line (cells (grid s)) m = true -> winner s = Some m.
Proof.
  intros Hs Hm. pose proof Hs as [Hg _].
  destruct (winner s) as [m'|] eqn:Hw.
  - f_equal. apply (Position_single_winner s); auto.
    now apply winner_Some_completes.
  - rewrite (winner_None_completes s m Hg Hw) in Hm. discriminate.
Qed.

(** A line that is held stays held when a mark is put on an empty cell. *)
Lemma completes_line_kept (cs : string) (n : nat) (c : ascii) (m : Mark) :
  String.get n cs = Some " "%char ->
  completes_line cs m = true -> completes_line (set_nth n c cs) m = true.
Proof.
  intros Hn H. apply completes_line_spec in H as (line & Hin & Hl).
  apply completes_line_spec. exists line. split; [assumption|].
  intros i Hi. specialize (Hl i Hi).
  rewrite get_set_nth_other; [assumption|].
  intros Heq. rewrite Heq, Hn in Hl. destruct m; discriminate.
Qed.

(** X11.  A won game stays won: if a Position has a winner and
    [make_move_to] still returns a move, the after state has the same
    winner and is over. *)
Theorem winner_persists (s : GameState) (i : Z) (mv : Move) (m : Mark) :
  Position s ->
  winner s = Some m ->
  make_move_to s i = Ok mv ->
  winner (after_state mv) = Some m /\ game_over (after_state mv) = true.
Proof.
  intros Hs Hw H. pose proof Hs as [Hg _].
  destruct (make_move_to_Ok_inv s i mv Hg H)
    as (j & Hj & _ & _ & Hc & Hv & ->).
  cbn [with_cell_index move_to after_state].
  assert (Hp : Position (next_state s j))
    by (split; [now apply next_state_grid | assumption]).
  assert (Hwin : winner (next_state s j) = Some m).
  { apply Position_winner_of_completes; [assumption|].
    rewrite next_state_cells by assumption.
    apply completes_line_kept; [|now apply winner_Some_completes].
    destruct (Position_cell s j Hg Hj) as (c & Hget & Hc' & _). congruence. }
  split; [assumption|]. unfold game_over. now rewrite Hwin.
Qed.

Lemma winner_persists_witness :
  Position cross_won /\ winner cross_won = Some CROSS
  /\ make_move_to cross_won 8 = Ok (move_to cross_won 8)
  /\ winner (after_state (move_to cross_won 8)) = Some CROSS
  /\ game_over (after_state (move_to cross_won 8)) = true.
Proof.
  assert (Hp : Position cross_won) by (split; reflexivity).
  assert (H : make_move_to cross_won 8 = Ok (move_to cross_won 8))
    by reflexivity.
  split; [exact Hp|]. split; [reflexivity|]. split; [exact H|].
  exact (winner_persists cross_won 8 _ CROSS Hp eq_refl H).
Defined.

(** ** Games played from the default state *)

(** X12.  In a game played from the default state by [n] returned moves,
    the state is a Position with X as starting mark, [n] marks are on the
    board, X having as many as O or one more, and [9 - n] cells are
    empty, so no game has more than nine moves and after nine the game
    is over; [possible_moves] never raises, and offers [9 - n] moves as
    long as the game is not over. *)
Theorem played_invariant (n : nat) (s : GameState) :
  played n s ->
  Position s
  /\ starting_mark s = CROSS
  /\ x_count (grid s) + o_count (grid s) = Z.of_nat n
  /\ o_count (grid s) <= x_count (grid s) <= o_count (grid s) + 1
  /\ empty_count (grid s) = 9 - Z.of_nat n
  /\ (n <= 9)%nat
  /\ (n = 9%nat -> game_over s = true)
  /\ exists mvs,
       possible_moves s = Ok mvs
       /\ Z.of_nat (List.length mvs)
          = if game_over s then 0 else 9 - Z.of_nat n.
Proof.
  intros Hplayed.
  assert (Hinv : Position s
                 /\ starting_mark s = CROSS
                 /\ x_count (grid s) + o_count (grid s) = Z.of_nat n
                 /\ o_count (grid s) <= x_count (grid s) <= o_count (grid s) + 1
                 /\ empty_count (grid s) = 9 - Z.of_nat n).
  { induction Hplayed as [|n s i mv _ IH H].
    - repeat apply conj; try reflexivity; vm_compute; discriminate.
    - destruct IH as (Hs & Hstart & Hsum & Hbal & Hempty).
      pose proof Hs as [Hg _].
      destruct (make_move_to_Ok_inv s i mv Hg H)
        as (j & Hj & _ & _ & Hc & Hv & ->).
      cbn [with_cell_index move_to after_state].
      destruct (next_state_counts s j Hg Hj Hc) as [Hx Ho].
      rewrite Hx, Ho, (next_state_empty_count s j Hg Hj Hc).
      unfold current_mark. rewrite Hstart.
      split; [split; [now apply next_state_grid | assumption]|].
      split; [assumption|].
      destruct (Z.eqb_spec (x_count (grid s)) (o_count (grid s)));
        cbn [Mark_is other]; lia. }
  destruct Hinv as (Hs & Hstart & Hsum & Hbal & Hempty).
  pose proof (count_bounds " " (cells (grid s))) as Hb.
  fold (empty_count (grid s)) in Hb.
  repeat (split; [assumption || lia|]).
  split.
  - intros ->. unfold game_over, tie.
    replace (empty_count (grid s)) with 0 by lia.
    destruct (winner s); reflexivity.
  - rewrite (possible_moves_eq s Hs).
    destruct (game_over s) eqn:Hover; [now exists []|].
    destruct (Z.leb_spec (o_count (grid s)) (x_count (grid s))); [|lia].
    eexists. split; [reflexivity|].
    rewrite length_map. rewrite <- Hempty.
    apply starts_from_whitespace_length.
    now apply validate_grid_all; destruct Hs.
Qed.

Lemma played_invariant_witness :
  played 1 (next_state initial 4)
  /\ Position (next_state initial 4)
  /\ empty_count (grid (next_state initial 4)) = 9 - Z.of_nat 1.
Proof.
  assert (Hp : played 1 (next_state initial 4)).
  { apply (played_move 0 initial 4 (move_to initial 4));
      [apply played_initial | reflexivity]. }
  pose proof (played_invariant 1 _ Hp) as (Hpos & _ & _ & _ & He & _).
  split; [exact Hp|]. split; [exact Hpos | exact He].
Defined.
